(** * A JSON user store driven from the command line

    The repository holds two versions of one Go program: [main.go] and a
    second, unnamed file.  Both read a backing file, interpret it as a JSON
    array of [User] records and answer one of the operations [add], [list],
    [findById] and [remove] on an [io.Writer].  The two versions differ in
    [addItem] and [removeUser] only; each is embedded below in a module of
    its own ([MainGo], [Part000]).

    The Go run time the program calls into is modelled in the first part:
    errors, the file system behind [os.OpenFile] and [io.ReadAll], the
    [io.Writer] interface and the [encoding/json] codec.  The last two are
    interfaces (type classes): the theorems hold for every writer and for
    every codec; [Buffer] and [GoJSON] are executable instances. *)

From stdpp Require Import gmap strings list fin_maps pretty.
From Stdlib Require Import ZArith Ascii.

Set Warnings "-register-all".

(** ** Errors *)

(** The values of Go's [error] interface that can reach the caller of
    [Perform]: the four package-level sentinels of the program, the value
    built by [fmt.Errorf], and the errors of the libraries. *)
Inductive error : Type :=
  | ErrFileNameFlagMissing
  | ErrOperationFlagMissing
  | ErrItemFlagMissing
  | ErrIDFlagMissing
  | Errorf (msg : string)        (* fmt.Errorf(...) *)
  | ErrOS (msg : string)         (* os.OpenFile, io.ReadAll *)
  | ErrJSON (msg : string)       (* json.Unmarshal, json.Marshal *)
  | ErrWriter (msg : string).    (* the io.Writer's own error *)

(** The [Error()] method. *)
Definition Error (e : error) : string :=
  match e with
  | ErrFileNameFlagMissing => "-fileName flag has to be specified"
  | ErrOperationFlagMissing => "-operation flag has to be specified"
  | ErrItemFlagMissing => "-item flag has to be specified"
  | ErrIDFlagMissing => "-id flag has to be specified"
  | Errorf msg | ErrOS msg | ErrJSON msg | ErrWriter msg => msg
  end.

(** A Go result pair [(value, err)]. *)
Inductive result (A : Type) : Type :=
  | Ok (a : A)
  | Err (e : error).
Arguments Ok {A} a.
Arguments Err {A} e.

(** ** Data model *)

(** [type User struct { ID string; Email string; Age int }] *)
Record User : Type := mkUser { ID : string; Email : string; Age : Z }.

(** A value of type [[]User]: the nil slice ([None]) or a sequence of
    records.  [json.Marshal] tells the two apart. *)
Abbreviation Users := (option (list User)).

Definition elems (s : Users) : list User := default [] s.

(** [append(s, u)] *)
Definition append (s : Users) (u : User) : Users := Some (elems s ++ [u]).

(** [append(s[:i], s[i+1:]...)] for [i] within the slice. *)
Definition cut (i : nat) (l : list User) : Users :=
  Some (take i l ++ drop (S i) l).

(** [type Arguments map[string]string]; [args[k]] is the zero value when
    the key is absent. *)
Abbreviation Arguments := (gmap string string).

Definition index (args : Arguments) (k : string) : string :=
  default EmptyString (args !! k).

(** ** The libraries *)

(** [io.Writer]: [Write] returns the number of bytes written or an error,
    and changes the writer. *)
Class Writer (W : Type) : Type :=
  writeTo : W → string → result nat * W.

(** [encoding/json] as the program uses it: decoding into [[]User] and
    into [User] (a failure carries its message), and encoding of the two.
    Decoding zero bytes fails ("unexpected end of JSON input"). *)
Class Codec : Type := {
  decodeUsers : string → string + Users;
  decodeUser : string → string + User;
  encodeUsers : Users → string;
  encodeUser : User → string;
  decodeUsers_empty : ∃ msg, decodeUsers EmptyString = inl msg
}.

(** What a path names in the file system. *)
Inductive node : Type :=
  | Regular (data : string)      (* a file and its bytes *)
  | Directory                    (* cannot be opened for writing *)
  | Unreadable (reason : string) (* opens, but a read fails *).

(** [*os.File]: an open file refers to the store by its path. *)
Record File : Type := mkFile { path : string }.

(** The state an invocation runs in: the file system and the writer. *)
Record world (W : Type) : Type := mkWorld { fsys : gmap string node; out : W }.
Arguments mkWorld {W} fsys out.
Arguments fsys {W} w.
Arguments out {W} w.

(** ** The monad of Go statements: state, and [return err] *)

Definition M (W A : Type) : Type := world W → result A * world W.

Global Instance M_ret {W} : MRet (M W) := λ A a σ, (Ok a, σ).

Global Instance M_bind {W} : MBind (M W) := λ A B f m σ,
  match m σ with
  | (Ok a, σ') => f a σ'
  | (Err e, σ') => (Err e, σ')
  end.

(** [return err] *)
Definition throw {W A} (e : error) : M W A := λ σ, (Err e, σ).

Section Runtime.
Context {W : Type} {Wr : Writer W} {J : Codec}.

(** [os.OpenFile(name, os.O_RDWR|os.O_CREATE, 0644)] *)
Definition OpenFile (name : string) : M W File := λ σ,
  match fsys σ !! name with
  | None => (Ok (mkFile name), mkWorld (<[name := Regular EmptyString]> (fsys σ)) (out σ))
  | Some Directory => (Err (ErrOS ("open " +:+ name +:+ ": is a directory")), σ)
  | Some _ => (Ok (mkFile name), σ)
  end.

(** [io.ReadAll(file)] *)
Definition ReadAll (file : File) : M W string := λ σ,
  match fsys σ !! path file with
  | Some (Regular data) => (Ok data, σ)
  | Some (Unreadable reason) => (Err (ErrOS reason), σ)
  | Some Directory | None => (Err (ErrOS "bad file descriptor"), σ)
  end.

(** [writer.Write(p)] *)
Definition Write (p : string) : M W nat := λ σ,
  let (r, w) := writeTo (out σ) p in (r, mkWorld (fsys σ) w).

(** [json.Unmarshal(data, &users)] with [var users []User] *)
Definition UnmarshalUsers (data : string) : M W Users := λ σ,
  match decodeUsers data with
  | inr users => (Ok users, σ)
  | inl msg => (Err (ErrJSON msg), σ)
  end.

(** [json.Unmarshal(data, &user)] with [var user User] *)
Definition UnmarshalUser (data : string) : M W User := λ σ,
  match decodeUser data with
  | inr user => (Ok user, σ)
  | inl msg => (Err (ErrJSON msg), σ)
  end.

(** [json.Marshal(users)] and [json.Marshal(user)]: a struct of strings
    and an integer always encodes, so the error is nil. *)
Definition MarshalUsers (users : Users) : M W string := mret (encodeUsers users).
Definition MarshalUser (user : User) : M W string := mret (encodeUser user).

(** The statement pair [_, err = writer.Write(p); if err != nil { return
    err }; return nil] that ends every path of the operations. *)
Definition emit (p : string) : M W unit := _ ← Write p; mret tt.
End Runtime.

(** ** Loops *)

(** [for i, u := range l { body }] where the body either falls through to
    the next element ([Next]) or leaves the loop, by [return] or [break],
    with a value ([Leave]).  An error raised in the body ends the loop, as
    [return err] does. *)
Inductive flow (A : Type) : Type :=
  | Next
  | Leave (a : A).
Arguments Next {A}.
Arguments Leave {A} a.

Fixpoint rangeFrom {W A} (i : nat) (l : list User)
    (body : nat → User → M W (flow A)) : M W (flow A) :=
  match l with
  | [] => mret Next
  | u :: l' =>
      r ← body i u;
      match r with
      | Next => rangeFrom (S i) l' body
      | Leave a => mret (Leave a)
      end
  end.

Definition range {W A} (l : list User) (body : nat → User → M W (flow A)) :
    M W (flow A) :=
  rangeFrom 0 l body.

(** [parseArgs], as a function of the values the four flags were given
    (each defaults to the empty string). *)
Definition parseArgs (idFlag operationFlag itemFlag fileNameFlag : string) : Arguments :=
  <["id" := idFlag]> (<["operation" := operationFlag]>
    (<["item" := itemFlag]> (<["fileName" := fileNameFlag]> ∅))).

(** How a run of the process ends: [main] returns, or panics with an
    error. *)
Inductive exit : Type :=
  | Returns
  | Panics (e : error).

(** ** The operations both versions share *)

Section Shared.
Context {W : Type} {Wr : Writer W} {J : Codec}.

(** [listItems], the same text in both files. *)
Definition listItems (file : File) : M W unit :=
  data ← ReadAll file;
  if decide (String.length data = 0) then
    emit ""
  else
    item ← UnmarshalUsers data;
    data ← MarshalUsers item;
    emit data.

(** [findUserById], the same text in both files. *)
Definition findUserById (file : File) (id : string) : M W unit :=
  data ← ReadAll file;
  if decide (String.length data = 0) then
    emit ""
  else
    item ← UnmarshalUsers data;
    r ← range (elems item) (λ _ user,
          if decide (ID user = id) then
            data ← MarshalUser user;
            _ ← emit data;
            mret (Leave tt)
          else mret Next);
    match r with
    | Leave _ => mret tt
    | Next => emit ""
    end.

End Shared.

(** ** main.go *)

Module MainGo.
Section Ops.
Context {W : Type} {Wr : Writer W} {J : Codec}.

Definition addItem (file : File) (item : string) : M W unit :=
  data ← ReadAll file;
  if decide (String.length data = 0) then
    emit item
  else
    itemArray ← UnmarshalUsers data;
    user ← UnmarshalUser item;
    r ← range (elems itemArray) (λ _ userItem,
          if decide (ID userItem = ID user) then
            _ ← emit ("Item with id " +:+ ID user +:+ " already exists");
            mret (Leave tt)
          else mret Next);
    match r with
    | Leave _ => mret tt
    | Next =>
        let itemArray := append itemArray user in
        data ← MarshalUsers itemArray;
        emit data
    end.

Definition removeUser (file : File) (id : string) : M W unit :=
  data ← ReadAll file;
  if decide (String.length data = 0) then
    emit ""
  else
    item ← UnmarshalUsers data;
    r ← range (elems item) (λ i user,
          if decide (ID user = id) then
            let item := cut i (elems item) in
            data ← MarshalUsers item;
            _ ← emit data;
            mret (Leave tt)
          else mret Next);
    match r with
    | Leave _ => mret tt
    | Next => emit ("Item with id " +:+ id +:+ " not found")
    end.

Definition Perform (args : Arguments) : M W unit :=
  let fileName := index args "fileName" in
  if decide (fileName = "") then throw ErrFileNameFlagMissing else
  let operation := index args "operation" in
  if decide (operation = "") then throw ErrOperationFlagMissing else
  file ← OpenFile fileName;
  (* defer file.Close() *)
  if decide (operation = "add") then
    let item := index args "item" in
    if decide (item = "") then throw ErrItemFlagMissing else
    addItem file item
  else if decide (operation = "list") then
    listItems file
  else if decide (operation = "findById") then
    let id := index args "id" in
    if decide (id = "") then throw ErrIDFlagMissing else
    findUserById file id
  else if decide (operation = "remove") then
    let id := index args "id" in
    if decide (id = "") then throw ErrIDFlagMissing else
    removeUser file id
  else throw (Errorf ("Operation " +:+ operation +:+ " not allowed!")).

(** [main]: [Perform] on the parsed flags and standard output (the writer
    of the world), and a panic with the error when there is one. *)
Definition main (idFlag operationFlag itemFlag fileNameFlag : string) :
    world W → exit * world W := λ σ,
  match Perform (parseArgs idFlag operationFlag itemFlag fileNameFlag) σ with
  | (Ok _, σ') => (Returns, σ')
  | (Err err, σ') => (Panics err, σ')
  end.

End Ops.
End MainGo.

(** ** The second version (the file whose name is unknown) *)

Module Part000.
Section Ops.
Context {W : Type} {Wr : Writer W} {J : Codec}.

(** No test for the empty file here: zero bytes go to [json.Unmarshal]. *)
Definition addItem (file : File) (item : string) : M W unit :=
  data ← ReadAll file;
  itemList ← UnmarshalUsers data;
  user ← UnmarshalUser item;
  r ← range (elems itemList) (λ _ userItem,
        if decide (ID userItem = ID user) then
          _ ← emit ("Item with id " +:+ ID user +:+ " already exists");
          mret (Leave tt)
        else mret Next);
  match r with
  | Leave _ => mret tt
  | Next =>
      let itemList := append itemList user in
      data ← MarshalUsers itemList;
      emit data
  end.

(** The loop only rebinds [item] and breaks; what follows it runs whether
    or not a record was removed. *)
Definition removeUser (file : File) (id : string) : M W unit :=
  data ← ReadAll file;
  if decide (String.length data = 0) then
    emit ("Item with id " +:+ id +:+ " not found")
  else
    item ← UnmarshalUsers data;
    r ← range (elems item) (λ i user,
          if decide (ID user = id) then
            mret (Leave (cut i (elems item)))
          else mret Next);
    let item := match r with Leave item' => item' | Next => item end in
    data ← MarshalUsers item;
    emit data.

Definition Perform (args : Arguments) : M W unit :=
  let fileName := index args "fileName" in
  if decide (fileName = "") then throw ErrFileNameFlagMissing else
  let operation := index args "operation" in
  if decide (operation = "") then throw ErrOperationFlagMissing else
  file ← OpenFile fileName;
  (* defer file.Close() *)
  if decide (operation = "add") then
    if decide (index args "item" = "") then throw ErrItemFlagMissing else
    addItem file (index args "item")
  else if decide (operation = "list") then
    listItems file
  else if decide (operation = "findById") then
    let id := index args "id" in
    if decide (id = "") then throw ErrIDFlagMissing else
    findUserById file id
  else if decide (operation = "remove") then
    let id := index args "id" in
    if decide (id = "") then throw ErrIDFlagMissing else
    removeUser file id
  else throw (Errorf ("Operation " +:+ operation +:+ " not allowed!")).

(** [main]: [Perform] on the parsed flags and standard output (the writer
    of the world), and a panic with the error when there is one. *)
Definition main (idFlag operationFlag itemFlag fileNameFlag : string) :
    world W → exit * world W := λ σ,
  match Perform (parseArgs idFlag operationFlag itemFlag fileNameFlag) σ with
  | (Ok _, σ') => (Returns, σ')
  | (Err err, σ') => (Panics err, σ')
  end.

End Ops.
End Part000.

(** ** Executable instances of the libraries *)

(** [bytes.Buffer]: a write appends its bytes and does not fail. *)
Definition Buffer : Writer string := λ b p, (Ok (String.length p), b +:+ p).

(** A writer whose every write fails, as a pipe closed at the other end. *)
Definition ClosedPipe : Writer unit :=
  λ w _, (Err (ErrWriter "io: read/write on closed pipe"), w).

(** *** An executable codec

    [GoJSON] follows [encoding/json] on the documents the program meets:
    objects with the keys [id], [email] and [age] (matched without regard
    to case, unknown keys skipped, [null] leaving a field as it is), arrays
    of them, and [null].  It is narrower than the library in three places:
    a number must be an integer literal, a [\u] escape must not name a
    surrogate, and strings are taken byte by byte (no check or repair of
    UTF-8).  The encoder writes the quote, the backslash, [\n], [\r] and
    [\t] as two-byte escapes and the other control bytes and [<], [>], [&]
    as [\u00XX].  The texts of the errors are shortened. *)

Module JSON.

Inductive token : Type :=
  | TLBrack | TRBrack | TLBrace | TRBrace | TColon | TComma
  | TString (s : string)
  | TNumber (z : Z)
  | TNull | TTrue | TFalse.

Inductive value : Type :=
  | VNull
  | VBool (b : bool)
  | VNumber (z : Z)
  | VString (s : string)
  | VArray (l : list value)
  | VObject (members : list (string * value)).

(** The scanner's state between two bytes; accumulators are reversed. *)
Inductive scan : Type :=
  | Idle
  | InString (acc : list ascii)
  | InEscape (acc : list ascii)
  | InUnicode (acc : list ascii) (hex : list N)
  | InNumber (acc : list ascii)
  | InWord (acc : list ascii).

Definition code (c : ascii) : N := N_of_ascii c.
Definition char (n : N) : ascii := ascii_of_N n.

Definition is_space (c : ascii) : bool :=
  bool_decide (code c ∈ [32; 9; 10; 13]%N).
Definition is_digit (c : ascii) : bool :=
  bool_decide (48 ≤ code c ≤ 57)%N.
Definition is_lower (c : ascii) : bool :=
  bool_decide (97 ≤ code c ≤ 122)%N.

Definition hex_digit (c : ascii) : option N :=
  let n := code c in
  if bool_decide (48 ≤ n ≤ 57)%N then Some (n - 48)%N
  else if bool_decide (97 ≤ n ≤ 102)%N then Some (n - 87)%N
  else if bool_decide (65 ≤ n ≤ 70)%N then Some (n - 55)%N
  else None.

(** UTF-8 of a code point of the basic plane, reversed. *)
Definition utf8_rev (cp : N) : option (list ascii) :=
  if bool_decide (cp < 128)%N then Some [char cp]
  else if bool_decide (cp < 2048)%N then
    Some [char (128 + cp mod 64); char (192 + cp / 64)]%N
  else if bool_decide (55296 ≤ cp ≤ 57343)%N then None
  else Some [char (128 + cp mod 64); char (128 + (cp / 64) mod 64);
             char (224 + cp / 4096)]%N.

Definition unescape (c : ascii) : option ascii :=
  let n := code c in
  if bool_decide (n ∈ [34; 92; 47]%N) then Some c
  else if bool_decide (n = 98)%N then Some (char 8)
  else if bool_decide (n = 102)%N then Some (char 12)
  else if bool_decide (n = 110)%N then Some (char 10)
  else if bool_decide (n = 114)%N then Some (char 13)
  else if bool_decide (n = 116)%N then Some (char 9)
  else None.

Fixpoint digits (acc : Z) (ds : list ascii) : Z :=
  match ds with
  | [] => acc
  | d :: ds' => digits (10 * acc + Z.of_N (code d - 48)) ds'
  end.

(** [0] or a digit string without a leading zero, with an optional sign. *)
Definition number (acc : list ascii) : option token :=
  let unsigned ds :=
    match ds with
    | [] => None
    | d :: ds' =>
        if bool_decide (code d = 48%N ∧ ds' ≠ []) then None
        else Some (digits 0 ds)
    end in
  match rev acc with
  | c :: ds =>
      if bool_decide (code c = 45%N) then (λ z, TNumber (- z)) <$> unsigned ds
      else TNumber <$> unsigned (c :: ds)
  | [] => None
  end.

Definition word (acc : list ascii) : option token :=
  let w := String.string_of_list_ascii (rev acc) in
  if decide (w = "null") then Some TNull
  else if decide (w = "true") then Some TTrue
  else if decide (w = "false") then Some TFalse
  else None.

(** What a byte starts when no token is open. *)
Definition start (c : ascii) : option (list token * scan) :=
  let n := code c in
  if is_space c then Some ([], Idle)
  else if bool_decide (n = 91)%N then Some ([TLBrack], Idle)
  else if bool_decide (n = 93)%N then Some ([TRBrack], Idle)
  else if bool_decide (n = 123)%N then Some ([TLBrace], Idle)
  else if bool_decide (n = 125)%N then Some ([TRBrace], Idle)
  else if bool_decide (n = 58)%N then Some ([TColon], Idle)
  else if bool_decide (n = 44)%N then Some ([TComma], Idle)
  else if bool_decide (n = 34)%N then Some ([], InString [])
  else if bool_decide (n = 45)%N || is_digit c then Some ([], InNumber [c])
  else if is_lower c then Some ([], InWord [c])
  else None.

Fixpoint lex (st : scan) (s : string) : option (list token) :=
  match s with
  | EmptyString =>
      match st with
      | Idle => Some []
      | InNumber acc => t ← number acc; Some [t]
      | InWord acc => t ← word acc; Some [t]
      | _ => None
      end
  | String c s' =>
      match st with
      | Idle =>
          '(ts, st') ← start c; rest ← lex st' s'; Some (ts ++ rest)
      | InString acc =>
          if bool_decide (code c = 34)%N then
            rest ← lex Idle s';
            Some (TString (String.string_of_list_ascii (rev acc)) :: rest)
          else if bool_decide (code c = 92)%N then lex (InEscape acc) s'
          else if bool_decide (code c < 32)%N then None
          else lex (InString (c :: acc)) s'
      | InEscape acc =>
          if bool_decide (code c = 117)%N then lex (InUnicode acc []) s'
          else c' ← unescape c; lex (InString (c' :: acc)) s'
      | InUnicode acc hex =>
          h ← hex_digit c;
          match hex with
          | [h2; h1; h0] =>
              bytes ← utf8_rev (4096 * h0 + 256 * h1 + 16 * h2 + h)%N;
              lex (InString (bytes ++ acc)) s'
          | _ => lex (InUnicode acc (h :: hex)) s'
          end
      | InNumber acc =>
          if is_digit c then lex (InNumber (c :: acc)) s'
          else
            t ← number acc; '(ts, st') ← start c; rest ← lex st' s';
            Some (t :: ts ++ rest)
      | InWord acc =>
          if is_lower c then lex (InWord (c :: acc)) s'
          else
            t ← word acc; '(ts, st') ← start c; rest ← lex st' s';
            Some (t :: ts ++ rest)
      end
  end.

Fixpoint parseValue (fuel : nat) (ts : list token) : option (value * list token) :=
  match fuel with
  | 0 => None
  | S n =>
      match ts with
      | TNull :: r => Some (VNull, r)
      | TTrue :: r => Some (VBool true, r)
      | TFalse :: r => Some (VBool false, r)
      | TNumber z :: r => Some (VNumber z, r)
      | TString s :: r => Some (VString s, r)
      | TLBrack :: TRBrack :: r => Some (VArray [], r)
      | TLBrack :: r => '(l, r') ← parseElems n r; Some (VArray l, r')
      | TLBrace :: TRBrace :: r => Some (VObject [], r)
      | TLBrace :: r => '(m, r') ← parseMembers n r; Some (VObject m, r')
      | _ => None
      end
  end
with parseElems (fuel : nat) (ts : list token) : option (list value * list token) :=
  match fuel with
  | 0 => None
  | S n =>
      '(v, r) ← parseValue n ts;
      match r with
      | TRBrack :: r' => Some ([v], r')
      | TComma :: r' => '(l, r'') ← parseElems n r'; Some (v :: l, r'')
      | _ => None
      end
  end
with parseMembers (fuel : nat) (ts : list token) :
    option (list (string * value) * list token) :=
  match fuel with
  | 0 => None
  | S n =>
      match ts with
      | TString k :: TColon :: r =>
          '(v, r') ← parseValue n r;
          match r' with
          | TRBrace :: r'' => Some ([(k, v)], r'')
          | TComma :: r'' => '(m, r''') ← parseMembers n r''; Some ((k, v) :: m, r''')
          | _ => None
          end
      | _ => None
      end
  end.

Definition parse (s : string) : string + value :=
  match lex Idle s with
  | None => inl "invalid character in JSON input"
  | Some [] => inl "unexpected end of JSON input"
  | Some ts =>
      match parseValue (2 * length ts + 2) ts with
      | Some (v, []) => inr v
      | _ => inl "invalid JSON input"
      end
  end.

Definition lower (c : ascii) : ascii :=
  if bool_decide (65 ≤ code c ≤ 90)%N then char (code c + 32) else c.

Definition fold_case (k : string) : string :=
  String.string_of_list_ascii (lower <$> String.list_ascii_of_string k).

Definition int_range (z : Z) : bool :=
  bool_decide (- 2 ^ 63 ≤ z < 2 ^ 63)%Z.

Definition setField (u : User) (member : string * value) : string + User :=
  let (k, v) := member in
  let k := fold_case k in
  if decide (k = "id") then
    match v with
    | VString s => inr (mkUser s (Email u) (Age u))
    | VNull => inr u
    | _ => inl "json: cannot unmarshal into Go struct field User.id of type string"
    end
  else if decide (k = "email") then
    match v with
    | VString s => inr (mkUser (ID u) s (Age u))
    | VNull => inr u
    | _ => inl "json: cannot unmarshal into Go struct field User.email of type string"
    end
  else if decide (k = "age") then
    match v with
    | VNumber z =>
        if int_range z then inr (mkUser (ID u) (Email u) z)
        else inl "json: cannot unmarshal number into Go struct field User.age of type int"
    | VNull => inr u
    | _ => inl "json: cannot unmarshal into Go struct field User.age of type int"
    end
  else inr u.

Fixpoint setFields (u : User) (members : list (string * value)) : string + User :=
  match members with
  | [] => inr u
  | m :: members' =>
      match setField u m with
      | inr u' => setFields u' members'
      | inl msg => inl msg
      end
  end.

Definition zero : User := mkUser "" "" 0.

Definition toUser (v : value) : string + User :=
  match v with
  | VNull => inr zero
  | VObject members => setFields zero members
  | _ => inl "json: cannot unmarshal into Go value of type main.User"
  end.

Fixpoint toUserList (vs : list value) : string + list User :=
  match vs with
  | [] => inr []
  | v :: vs' =>
      match toUser v, toUserList vs' with
      | inr u, inr us => inr (u :: us)
      | inl msg, _ | _, inl msg => inl msg
      end
  end.

Definition toUsers (v : value) : string + Users :=
  match v with
  | VNull => inr None
  | VArray vs =>
      match toUserList vs with
      | inr us => inr (Some us)
      | inl msg => inl msg
      end
  | _ => inl "json: cannot unmarshal into Go value of type []main.User"
  end.

Definition decodeUser (s : string) : string + User :=
  match parse s with
  | inr v => toUser v
  | inl msg => inl msg
  end.

Definition decodeUsers (s : string) : string + Users :=
  match parse s with
  | inr v => toUsers v
  | inl msg => inl msg
  end.

(** Encoding. *)

Definition dq : string := String (char 34) "".

Definition hex_char (n : N) : ascii :=
  if bool_decide (n < 10)%N then char (48 + n) else char (87 + n).

Definition escape_char (c : ascii) : string :=
  let n := code c in
  let bs := String (char 92) "" in
  if bool_decide (n = 34)%N then bs +:+ dq
  else if bool_decide (n = 92)%N then bs +:+ bs
  else if bool_decide (n = 10)%N then bs +:+ "n"
  else if bool_decide (n = 13)%N then bs +:+ "r"
  else if bool_decide (n = 9)%N then bs +:+ "t"
  else if bool_decide (n < 32 ∨ n ∈ [60; 62; 38])%N then
    bs +:+ "u00" +:+ String (hex_char (n / 16)) (String (hex_char (n mod 16)) "")
  else String c "".

Fixpoint escape (s : string) : string :=
  match s with
  | EmptyString => ""
  | String c s' => escape_char c +:+ escape s'
  end.

Definition quote (s : string) : string := dq +:+ escape s +:+ dq.

Definition encodeUser (u : User) : string :=
  "{" +:+ quote "id" +:+ ":" +:+ quote (ID u) +:+ ","
      +:+ quote "email" +:+ ":" +:+ quote (Email u) +:+ ","
      +:+ quote "age" +:+ ":" +:+ pretty (Age u) +:+ "}".

Definition encodeUsers (us : Users) : string :=
  match us with
  | None => "null"
  | Some l => "[" +:+ String.concat "," (encodeUser <$> l) +:+ "]"
  end.

End JSON.

(** JSON text written with single quotes for the double ones. *)
Fixpoint json (s : string) : string :=
  match s with
  | EmptyString => EmptyString
  | String c s' =>
      String (if bool_decide (c = "'"%char) then JSON.char 34 else c) (json s')
  end.

Definition GoJSON : Codec := {|
  decodeUsers := JSON.decodeUsers;
  decodeUser := JSON.decodeUser;
  encodeUsers := JSON.encodeUsers;
  encodeUser := JSON.encodeUser;
  decodeUsers_empty := ex_intro _ "unexpected end of JSON input" eq_refl
|}.

(** ** Sample data *)

(** The backing file of the examples, and a world that holds it with the
    given content and an empty [bytes.Buffer] as the writer. *)
Definition usersFile : File := mkFile "users.json".

Definition store (content : string) : world string :=
  mkWorld {[ "users.json" := Regular content ]} "".

(** The same, the file not yet there. *)
Definition fresh : world string := mkWorld ∅ "".

Definition alice : User := mkUser "1" "a@b.com" 34.
Definition bob : User := mkUser "2" "b@c.org" 27.
Definition carol : User := mkUser "1" "c@d.com" 50.

Definition aliceText : string := json "{'id':'1','email':'a@b.com','age':34}".
Definition bobText : string := json "{'id':'2','email':'b@c.org','age':27}".
Definition carolText : string := json "{'id':'1','email':'c@d.com','age':50}".

(** Invocations of the program one after the other on one file system,
    each with a writer of its own (its standard output): the file system
    they leave, and what each returned and wrote. *)
Fixpoint session (perform : Arguments → M string unit) (fs : gmap string node)
    (invocations : list Arguments) : gmap string node * list (result unit * string) :=
  match invocations with
  | [] => (fs, [])
  | args :: rest =>
      let (r, σ) := perform args (mkWorld fs "") in
      let (fs', outs) := session perform (fsys σ) rest in
      (fs', (r, out σ) :: outs)
  end.

(** ** Vocabulary of the statements *)

(** A computation that leaves the file system as it found it. *)
Definition frames {W A} (m : M W A) : Prop := ∀ σ, fsys (m σ).2 = fsys σ.

(** The one change [os.OpenFile] with [O_CREATE] makes: nothing, or the
    absent file created empty. *)
Definition created (name : string) (fs fs' : gmap string node) : Prop :=
  fs' = fs ∨ (fs !! name = None ∧ fs' = <[name := Regular ""]> fs).

(** [name] can be opened for reading and writing (or created). *)
Definition openable (fs : gmap string node) (name : string) : Prop :=
  fs !! name ≠ Some Directory.

(** [u] is the first record of [l] whose identifier is [id]. *)
Definition first_with (id : string) (l l1 : list User) (u : User) (l2 : list User) : Prop :=
  l = l1 ++ u :: l2 ∧ Forall (λ v, ID v ≠ id) l1 ∧ ID u = id.

(** A writer none of whose writes fails. *)
Definition reliable {W} (Wr : Writer W) : Prop :=
  ∀ w p, ∃ n, (writeTo w p).1 = Ok n.

(** The identifiers of a sequence are pairwise distinct. *)
Definition unique_ids (l : list User) : Prop := NoDup (ID <$> l).

(** The content is one [json.Unmarshal] accepts for [[]User], the item one
    it accepts for [User]. *)
Definition decodes `{Codec} (data : string) : Prop :=
  ∃ items, decodeUsers data = inr items.
Definition decodesUser `{Codec} (item : string) : Prop :=
  ∃ user, decodeUser item = inr user.

(** A run of [m] from [σ] that returned an error before any write, the
    world as it was, or that made one write and returned its outcome. *)
Definition aborts_or_writes_once {W} `{Writer W} (m : M W unit) (σ : world W) : Prop :=
  (∃ e, m σ = (Err e, σ)) ∨ (∃ p, m σ = emit p σ).

(** What one invocation returns and writes, on a [bytes.Buffer] of its
    own. *)
Definition alone (perform : Arguments → M string unit) (fs : gmap string node)
    (args : Arguments) : result unit * string :=
  let (r, σ) := perform args (mkWorld fs "") in (r, out σ).

(** [fs'] is [fs] with, possibly, files that were absent now there and
    empty. *)
Definition grown (fs fs' : gmap string node) : Prop :=
  ∀ p, fs' !! p = fs !! p ∨ (fs !! p = None ∧ fs' !! p = Some (Regular "")).

(** The flags a run needs: a file name, one of the four operations, and the
    item or the identifier that goes with it. *)
Definition flags_given (args : Arguments) : Prop :=
  index args "fileName" ≠ "" ∧
  (index args "operation" = "add" ∧ index args "item" ≠ "" ∨
   index args "operation" = "list" ∨
   (index args "operation" = "findById" ∨ index args "operation" = "remove") ∧
     index args "id" ≠ "").

(** * Properties *)

(** ** Laws of the monad and of the run time *)

Section Laws.
Context {W : Type} {Wr : Writer W} {J : Codec}.

Lemma bind_run {A B} (m : M W A) (f : A → M W B) (σ : world W) :
  (m ≫= f) σ =
  match m σ with
  | (Ok a, σ') => f a σ'
  | (Err e, σ') => (Err e, σ')
  end.
Proof. reflexivity. Qed.

Lemma ret_run {A} (a : A) (σ : world W) : (mret a : M W A) σ = (Ok a, σ).
Proof. reflexivity. Qed.

Lemma ReadAll_regular (file : File) (data : string) (σ : world W) :
  fsys σ !! path file = Some (Regular data) → ReadAll file σ = (Ok data, σ).
Proof. intros H. unfold ReadAll. rewrite H. reflexivity. Qed.

Lemma UnmarshalUsers_inr (data : string) (users : Users) (σ : world W) :
  decodeUsers data = inr users → UnmarshalUsers data σ = (Ok users, σ).
Proof. intros H. unfold UnmarshalUsers. rewrite H. reflexivity. Qed.

Lemma UnmarshalUsers_inl (data msg : string) (σ : world W) :
  decodeUsers data = inl msg → UnmarshalUsers data σ = (Err (ErrJSON msg), σ).
Proof. intros H. unfold UnmarshalUsers. rewrite H. reflexivity. Qed.

Lemma UnmarshalUser_inr (data : string) (user : User) (σ : world W) :
  decodeUser data = inr user → UnmarshalUser data σ = (Ok user, σ).
Proof. intros H. unfold UnmarshalUser. rewrite H. reflexivity. Qed.

Lemma UnmarshalUser_inl (data msg : string) (σ : world W) :
  decodeUser data = inl msg → UnmarshalUser data σ = (Err (ErrJSON msg), σ).
Proof. intros H. unfold UnmarshalUser. rewrite H. reflexivity. Qed.

(** Content that decodes is not empty. *)
Lemma decoded_nonempty (data : string) (users : Users) :
  decodeUsers data = inr users → String.length data ≠ 0.
Proof.
  intros H Hlen. destruct data; [|discriminate].
  destruct decodeUsers_empty as [msg Hmsg]. congruence.
Qed.

(** The loop passes over a prefix on which the body falls through. *)
Lemma rangeFrom_skip {A} (body : nat → User → M W (flow A))
    (l1 l2 : list User) (i : nat) (σ : world W) :
  (∀ j u, u ∈ l1 → body j u σ = (Ok Next, σ)) →
  rangeFrom i (l1 ++ l2) body σ = rangeFrom (length l1 + i) l2 body σ.
Proof.
  revert i. induction l1 as [|v l1 IH]; intros i Hskip; [reflexivity|].
  cbn [app rangeFrom]. rewrite bind_run, Hskip by left.
  rewrite IH by (intros; apply Hskip; by right).
  f_equal. cbn. lia.
Qed.

Lemma range_all_skip {A} (body : nat → User → M W (flow A))
    (l : list User) (σ : world W) :
  (∀ j u, u ∈ l → body j u σ = (Ok Next, σ)) →
  range l body σ = (Ok Next, σ).
Proof.
  intros Hskip. unfold range.
  rewrite <- (app_nil_r l). rewrite rangeFrom_skip by done. reflexivity.
Qed.

Lemma range_first {A} (body : nat → User → M W (flow A))
    (l1 l2 : list User) (u : User) (σ : world W) :
  (∀ j v, v ∈ l1 → body j v σ = (Ok Next, σ)) →
  range (l1 ++ u :: l2) body σ =
  match body (length l1) u σ with
  | (Ok Next, σ') => rangeFrom (S (length l1)) l2 body σ'
  | (Ok (Leave a), σ') => (Ok (Leave a), σ')
  | (Err e, σ') => (Err e, σ')
  end.
Proof.
  intros Hskip. unfold range. rewrite rangeFrom_skip by done.
  cbn [rangeFrom]. rewrite bind_run, Nat.add_0_r.
  destruct (body (length l1) u σ) as [[[|a]|e] σ']; reflexivity.
Qed.

End Laws.

(** On a [bytes.Buffer] a write appends; on a closed pipe it fails and the
    error is the operation's. *)
Lemma emit_Buffer (p : string) (σ : world string) :
  emit (Wr := Buffer) p σ = (Ok tt, mkWorld (fsys σ) (out σ +:+ p)).
Proof. reflexivity. Qed.

Lemma emit_ClosedPipe (p : string) (σ : world unit) :
  emit (Wr := ClosedPipe) p σ = (Err (ErrWriter "io: read/write on closed pipe"), σ).
Proof. destruct σ as [fs []]. reflexivity. Qed.

(** The first record that satisfies a decidable property splits the list. *)
Lemma first_match_split (P : User → Prop) `{∀ u, Decision (P u)} (l : list User) :
  (∃ u, u ∈ l ∧ P u) →
  ∃ l1 u l2, l = l1 ++ u :: l2 ∧ Forall (λ v, ¬ P v) l1 ∧ P u.
Proof.
  induction l as [|v l IH]; intros (u & Hin & HP).
  - by apply elem_of_nil in Hin.
  - destruct (decide (P v)) as [Hv|Hv].
    + exists [], v, l. by repeat split.
    + apply elem_of_cons in Hin as [->|Hin]; [done|].
      destruct IH as (l1 & u' & l2 & -> & Hl1 & Hu'); [by exists u|].
      exists (v :: l1), u', l2. repeat split; [|done]. by constructor.
Qed.

Lemma cut_middle (l1 l2 : list User) (u : User) :
  cut (length l1) (l1 ++ u :: l2) = Some (l1 ++ l2).
Proof.
  unfold cut. f_equal. f_equal.
  - by rewrite take_app_length.
  - replace (S (length l1)) with (length l1 + 1) by lia.
    by rewrite drop_app_add.
Qed.

(** ** What each operation does on each kind of content *)

Ltac run :=
  repeat first
    [ rewrite bind_run
    | rewrite ret_run
    | match goal with
      | H : ReadAll ?f ?σ = _ |- context [ReadAll ?f ?σ] => rewrite H
      | H : fsys ?σ !! path ?f = Some (Regular ?d) |- context [ReadAll ?f ?σ] =>
          rewrite (ReadAll_regular f d σ H)
      | H : decodeUsers ?d = inr ?us |- context [UnmarshalUsers ?d ?σ] =>
          rewrite (UnmarshalUsers_inr d us σ H)
      | H : decodeUsers ?d = inl ?msg |- context [UnmarshalUsers ?d ?σ] =>
          rewrite (UnmarshalUsers_inl d msg σ H)
      | H : decodeUser ?d = inr ?u |- context [UnmarshalUser ?d ?σ] =>
          rewrite (UnmarshalUser_inr d u σ H)
      | H : decodeUser ?d = inl ?msg |- context [UnmarshalUser ?d ?σ] =>
          rewrite (UnmarshalUser_inl d msg σ H)
      end ].

(** The loop bodies of the program test one record against an identifier. *)
Ltac skip_prefix Hl1 :=
  let j := fresh "j" in let v := fresh "v" in let Hv := fresh "Hv" in
  intros j v Hv; rewrite Forall_forall in Hl1; specialize (Hl1 v Hv);
  cbn beta; rewrite decide_False by done; reflexivity.

(** Both sides run one [emit] and agree on each of its outcomes. *)
Ltac by_emit :=
  match goal with
  | |- context [emit ?p ?σ] => destruct (emit p σ) as [[[]|?] ?]; reflexivity
  end.

Section Runs.
Context {W : Type} {Wr : Writer W} {J : Codec}.
Implicit Types (file : File) (σ : world W) (items : Users) (l : list User).

(** *** listItems *)

Lemma listItems_empty file σ :
  fsys σ !! path file = Some (Regular "") → listItems file σ = emit "" σ.
Proof. intros Hf. unfold listItems. run. reflexivity. Qed.

Lemma listItems_decoded file data items σ :
  fsys σ !! path file = Some (Regular data) →
  decodeUsers data = inr items →
  listItems file σ = emit (encodeUsers items) σ.
Proof.
  intros Hf Hd. unfold listItems. run.
  rewrite decide_False by by eapply decoded_nonempty.
  unfold MarshalUsers. run. reflexivity.
Qed.

(** *** findUserById *)

Lemma findUserById_empty file id σ :
  fsys σ !! path file = Some (Regular "") → findUserById file id σ = emit "" σ.
Proof. intros Hf. unfold findUserById. run. reflexivity. Qed.

Lemma findUserById_absent file id data items σ :
  fsys σ !! path file = Some (Regular data) →
  String.length data ≠ 0 →
  decodeUsers data = inr items →
  Forall (λ u, ID u ≠ id) (elems items) →
  findUserById file id σ = emit "" σ.
Proof.
  intros Hf Hlen Hd Hall. unfold findUserById. run.
  rewrite decide_False by done. run.
  rewrite range_all_skip; [reflexivity|]. skip_prefix Hall.
Qed.

Lemma findUserById_first file id data items l1 u l2 σ :
  fsys σ !! path file = Some (Regular data) →
  decodeUsers data = inr items →
  elems items = l1 ++ u :: l2 →
  Forall (λ v, ID v ≠ id) l1 →
  ID u = id →
  findUserById file id σ = emit (encodeUser u) σ.
Proof.
  intros Hf Hd Hsplit Hl1 Hu. unfold findUserById. run.
  rewrite decide_False by by eapply decoded_nonempty. run.
  rewrite Hsplit, range_first by skip_prefix Hl1.
  cbn beta. rewrite decide_True by done.
  unfold MarshalUser. run. by_emit.
Qed.

End Runs.

Section RunsAddRemove.
Context {W : Type} {Wr : Writer W} {J : Codec}.
Implicit Types (file : File) (σ : world W) (items : Users) (l : list User).

(** *** addItem *)

(** main.go on an empty file: the text of the item goes out as it came. *)
Lemma main_addItem_empty file item σ :
  fsys σ !! path file = Some (Regular "") → MainGo.addItem file item σ = emit item σ.
Proof. intros Hf. unfold MainGo.addItem. run. reflexivity. Qed.

(** The second version on an empty file: decoding zero bytes fails. *)
Lemma part_addItem_empty file item σ :
  fsys σ !! path file = Some (Regular "") →
  ∃ msg, decodeUsers "" = inl msg ∧ Part000.addItem file item σ = (Err (ErrJSON msg), σ).
Proof.
  intros Hf. destruct decodeUsers_empty as [msg Hmsg]. exists msg. split; [done|].
  unfold Part000.addItem. run. reflexivity.
Qed.

Lemma main_addItem_dup file item data items user l1 u l2 σ :
  fsys σ !! path file = Some (Regular data) →
  decodeUsers data = inr items →
  decodeUser item = inr user →
  elems items = l1 ++ u :: l2 →
  Forall (λ v, ID v ≠ ID user) l1 →
  ID u = ID user →
  MainGo.addItem file item σ = emit ("Item with id " +:+ ID user +:+ " already exists") σ.
Proof.
  intros Hf Hd Hi Hsplit Hl1 Hu. unfold MainGo.addItem. run.
  rewrite decide_False by by eapply decoded_nonempty. run.
  rewrite Hsplit, range_first by skip_prefix Hl1.
  cbn beta. rewrite decide_True by done. run. by_emit.
Qed.

Lemma part_addItem_dup file item data items user l1 u l2 σ :
  fsys σ !! path file = Some (Regular data) →
  decodeUsers data = inr items →
  decodeUser item = inr user →
  elems items = l1 ++ u :: l2 →
  Forall (λ v, ID v ≠ ID user) l1 →
  ID u = ID user →
  Part000.addItem file item σ = emit ("Item with id " +:+ ID user +:+ " already exists") σ.
Proof.
  intros Hf Hd Hi Hsplit Hl1 Hu. unfold Part000.addItem. run.
  rewrite Hsplit, range_first by skip_prefix Hl1.
  cbn beta. rewrite decide_True by done. run. by_emit.
Qed.

Lemma main_addItem_fresh file item data items user σ :
  fsys σ !! path file = Some (Regular data) →
  decodeUsers data = inr items →
  decodeUser item = inr user →
  Forall (λ v, ID v ≠ ID user) (elems items) →
  MainGo.addItem file item σ = emit (encodeUsers (Some (elems items ++ [user]))) σ.
Proof.
  intros Hf Hd Hi Hall. unfold MainGo.addItem. run.
  rewrite decide_False by by eapply decoded_nonempty. run.
  rewrite range_all_skip by skip_prefix Hall.
  unfold MarshalUsers. run. reflexivity.
Qed.

Lemma part_addItem_fresh file item data items user σ :
  fsys σ !! path file = Some (Regular data) →
  decodeUsers data = inr items →
  decodeUser item = inr user →
  Forall (λ v, ID v ≠ ID user) (elems items) →
  Part000.addItem file item σ = emit (encodeUsers (Some (elems items ++ [user]))) σ.
Proof.
  intros Hf Hd Hi Hall. unfold Part000.addItem. run.
  rewrite range_all_skip by skip_prefix Hall.
  unfold MarshalUsers. run. reflexivity.
Qed.

(** *** removeUser *)

Lemma main_removeUser_empty file id σ :
  fsys σ !! path file = Some (Regular "") → MainGo.removeUser file id σ = emit "" σ.
Proof. intros Hf. unfold MainGo.removeUser. run. reflexivity. Qed.

Lemma part_removeUser_empty file id σ :
  fsys σ !! path file = Some (Regular "") →
  Part000.removeUser file id σ = emit ("Item with id " +:+ id +:+ " not found") σ.
Proof. intros Hf. unfold Part000.removeUser. run. reflexivity. Qed.

Lemma main_removeUser_first file id data items l1 u l2 σ :
  fsys σ !! path file = Some (Regular data) →
  String.length data ≠ 0 →
  decodeUsers data = inr items →
  elems items = l1 ++ u :: l2 →
  Forall (λ v, ID v ≠ id) l1 →
  ID u = id →
  MainGo.removeUser file id σ = emit (encodeUsers (Some (l1 ++ l2))) σ.
Proof.
  intros Hf Hlen Hd Hsplit Hl1 Hu. unfold MainGo.removeUser. run.
  rewrite decide_False by done. run.
  rewrite Hsplit, range_first by skip_prefix Hl1.
  cbn beta. rewrite decide_True by done.
  rewrite cut_middle. unfold MarshalUsers. run. by_emit.
Qed.

Lemma part_removeUser_first file id data items l1 u l2 σ :
  fsys σ !! path file = Some (Regular data) →
  String.length data ≠ 0 →
  decodeUsers data = inr items →
  elems items = l1 ++ u :: l2 →
  Forall (λ v, ID v ≠ id) l1 →
  ID u = id →
  Part000.removeUser file id σ = emit (encodeUsers (Some (l1 ++ l2))) σ.
Proof.
  intros Hf Hlen Hd Hsplit Hl1 Hu. unfold Part000.removeUser. run.
  rewrite decide_False by done. run.
  rewrite Hsplit, range_first by skip_prefix Hl1.
  cbn beta. rewrite decide_True by done.
  rewrite cut_middle. unfold MarshalUsers. run. reflexivity.
Qed.

Lemma main_removeUser_absent file id data items σ :
  fsys σ !! path file = Some (Regular data) →
  String.length data ≠ 0 →
  decodeUsers data = inr items →
  Forall (λ v, ID v ≠ id) (elems items) →
  MainGo.removeUser file id σ = emit ("Item with id " +:+ id +:+ " not found") σ.
Proof.
  intros Hf Hlen Hd Hall. unfold MainGo.removeUser. run.
  rewrite decide_False by done. run.
  rewrite range_all_skip by skip_prefix Hall. reflexivity.
Qed.

(** The second version, when no record matches: the sequence it read is
    written back, and no message. *)
Lemma part_removeUser_absent file id data items σ :
  fsys σ !! path file = Some (Regular data) →
  String.length data ≠ 0 →
  decodeUsers data = inr items →
  Forall (λ v, ID v ≠ id) (elems items) →
  Part000.removeUser file id σ = emit (encodeUsers items) σ.
Proof.
  intros Hf Hlen Hd Hall. unfold Part000.removeUser. run.
  rewrite decide_False by done. run.
  rewrite range_all_skip by skip_prefix Hall.
  unfold MarshalUsers. run. reflexivity.
Qed.

End RunsAddRemove.

(** ** Failures *)

Section Failures.
Context {W : Type} {Wr : Writer W} {J : Codec}.
Implicit Types (file : File) (σ : world W) (items : Users).

(** A failed read ends every operation with that error, the world as it
    was. *)
Lemma read_failure file item id e σ :
  ReadAll file σ = (Err e, σ) →
  MainGo.addItem file item σ = (Err e, σ) ∧
  Part000.addItem file item σ = (Err e, σ) ∧
  listItems file σ = (Err e, σ) ∧
  findUserById file id σ = (Err e, σ) ∧
  MainGo.removeUser file id σ = (Err e, σ) ∧
  Part000.removeUser file id σ = (Err e, σ).
Proof.
  intros Hr.
  unfold MainGo.addItem, Part000.addItem, listItems, findUserById,
    MainGo.removeUser, Part000.removeUser.
  repeat split; run; reflexivity.
Qed.

(** Content that is handed to [json.Unmarshal] and does not decode. *)
Lemma content_failure file item id data msg σ :
  fsys σ !! path file = Some (Regular data) →
  String.length data ≠ 0 →
  decodeUsers data = inl msg →
  MainGo.addItem file item σ = (Err (ErrJSON msg), σ) ∧
  listItems file σ = (Err (ErrJSON msg), σ) ∧
  findUserById file id σ = (Err (ErrJSON msg), σ) ∧
  MainGo.removeUser file id σ = (Err (ErrJSON msg), σ) ∧
  Part000.removeUser file id σ = (Err (ErrJSON msg), σ).
Proof.
  intros Hf Hlen Hd.
  unfold MainGo.addItem, listItems, findUserById,
    MainGo.removeUser, Part000.removeUser.
  repeat split; run; rewrite decide_False by done; run; reflexivity.
Qed.

(** The second version's [addItem] decodes whatever it read. *)
Lemma part_addItem_content_failure file item data msg σ :
  fsys σ !! path file = Some (Regular data) →
  decodeUsers data = inl msg →
  Part000.addItem file item σ = (Err (ErrJSON msg), σ).
Proof. intros Hf Hd. unfold Part000.addItem. run. reflexivity. Qed.

(** The item is decoded once the content has been. *)
Lemma item_failure file item data items msg σ :
  fsys σ !! path file = Some (Regular data) →
  decodeUsers data = inr items →
  decodeUser item = inl msg →
  MainGo.addItem file item σ = (Err (ErrJSON msg), σ) ∧
  Part000.addItem file item σ = (Err (ErrJSON msg), σ).
Proof.
  intros Hf Hd Hi. unfold MainGo.addItem, Part000.addItem. split; run.
  - rewrite decide_False by by eapply decoded_nonempty. run. reflexivity.
  - reflexivity.
Qed.

End Failures.

(** ** The file system is only read *)

Section Frames.
Context {W : Type} {Wr : Writer W} {J : Codec}.
Implicit Types (file : File) (σ : world W).

Lemma frames_ret {A} (a : A) : frames (mret a : M W A).
Proof. intros σ. reflexivity. Qed.

Lemma frames_throw {A} (e : error) : frames (throw e : M W A).
Proof. intros σ. reflexivity. Qed.

Lemma frames_bind {A B} (m : M W A) (f : A → M W B) :
  frames m → (∀ a, frames (f a)) → frames (m ≫= f).
Proof.
  intros Hm Hf σ. rewrite bind_run. specialize (Hm σ).
  destruct (m σ) as [[a|e] σ']; cbn in *; [|done].
  by rewrite Hf.
Qed.

Lemma frames_ReadAll file : frames (ReadAll file : M W string).
Proof.
  intros σ. unfold ReadAll.
  destruct (fsys σ !! path file) as [[| |]|]; reflexivity.
Qed.

Lemma frames_Write (p : string) : frames (Write p).
Proof. intros σ. unfold Write. destruct (writeTo (out σ) p). reflexivity. Qed.

Lemma frames_UnmarshalUsers (data : string) : frames (UnmarshalUsers data : M W Users).
Proof. intros σ. unfold UnmarshalUsers. destruct (decodeUsers data); reflexivity. Qed.

Lemma frames_UnmarshalUser (data : string) : frames (UnmarshalUser data : M W User).
Proof. intros σ. unfold UnmarshalUser. destruct (decodeUser data); reflexivity. Qed.

Lemma frames_rangeFrom {A} (body : nat → User → M W (flow A)) (l : list User) (i : nat) :
  (∀ j u, frames (body j u)) → frames (rangeFrom i l body).
Proof.
  intros Hbody. revert i. induction l as [|u l IH]; intros i; cbn [rangeFrom].
  - apply frames_ret.
  - apply frames_bind; [apply Hbody|]. intros [|a]; [apply IH | apply frames_ret].
Qed.

End Frames.

Ltac frames_tac :=
  repeat first
    [ apply frames_ret
    | apply frames_throw
    | apply frames_ReadAll
    | apply frames_Write
    | apply frames_UnmarshalUsers
    | apply frames_UnmarshalUser
    | apply frames_bind; [|intros ?]
    | apply frames_rangeFrom; intros ? ?
    | assumption
    | case_decide
    | case_match ].

Section FramesOps.
Context {W : Type} {Wr : Writer W} {J : Codec}.
Implicit Types (file : File) (σ : world W).

Lemma frames_emit (p : string) : frames (emit p).
Proof. unfold emit. frames_tac. Qed.

Lemma frames_listItems file : frames (listItems file).
Proof. unfold listItems, MarshalUsers, emit. frames_tac. Qed.

Lemma frames_findUserById file id : frames (findUserById file id).
Proof. unfold findUserById, range, MarshalUser, emit. frames_tac. Qed.

Lemma frames_main_addItem file item : frames (MainGo.addItem file item).
Proof. unfold MainGo.addItem, range, MarshalUsers, emit. frames_tac. Qed.

Lemma frames_part_addItem file item : frames (Part000.addItem file item).
Proof. unfold Part000.addItem, range, MarshalUsers, emit. frames_tac. Qed.

Lemma frames_main_removeUser file id : frames (MainGo.removeUser file id).
Proof. unfold MainGo.removeUser, range, MarshalUsers, emit. frames_tac. Qed.

Lemma frames_part_removeUser file id : frames (Part000.removeUser file id).
Proof. unfold Part000.removeUser, range, MarshalUsers, emit. frames_tac. Qed.

Lemma OpenFile_world (name : string) σ :
  out (OpenFile name σ).2 = out σ ∧ created name (fsys σ) (fsys (OpenFile name σ).2).
Proof.
  unfold OpenFile, created.
  destruct (fsys σ !! name) as [[| |]|] eqn:E; cbn; auto.
Qed.

Lemma created_keeps (name : string) (fs fs' : gmap string node) (p : string) (n : node) :
  created name fs fs' → fs !! p = Some n → fs' !! p = Some n.
Proof.
  intros [->|[Hnone ->]] Hp; [done|].
  rewrite lookup_insert_ne; [done|]. intros ->. congruence.
Qed.

End FramesOps.

(** ** Perform *)

Ltac frames_ops :=
  first
    [ apply frames_listItems
    | apply frames_findUserById
    | apply frames_main_addItem
    | apply frames_part_addItem
    | apply frames_main_removeUser
    | apply frames_part_removeUser
    | apply frames_throw ].

(** A path of [Perform] that returns [e] once the file is open. *)
Ltac perform_returns Hopen :=
  cbv zeta; rewrite ?decide_False by done; rewrite ?decide_True by done;
  rewrite bind_run;
  match goal with
  | |- context [OpenFile ?name ?σ] =>
      destruct (OpenFile name σ) as [[?|?] ?] eqn:?; cbn in Hopen;
      [|discriminate Hopen]
  end;
  rewrite ?decide_False by done; rewrite ?decide_True by done;
  reflexivity.

Section PerformLaws.
Context {W : Type} {Wr : Writer W} {J : Codec}.
Implicit Types (args : Arguments) (σ : world W).

Lemma OpenFile_openable (name : string) σ :
  openable (fsys σ) name → (OpenFile name σ).1 = Ok (mkFile name).
Proof.
  unfold openable, OpenFile. intros Hopen.
  destruct (fsys σ !! name) as [[| |]|]; done.
Qed.

Lemma OpenFile_directory (name : string) σ :
  fsys σ !! name = Some Directory →
  OpenFile name σ = (Err (ErrOS ("open " +:+ name +:+ ": is a directory")), σ).
Proof. intros H. unfold OpenFile. rewrite H. reflexivity. Qed.

Lemma after_open_created (switch : File → M W unit) (name : string) σ :
  (∀ file, frames (switch file)) →
  created name (fsys σ) (fsys ((OpenFile name ≫= switch) σ).2) .
Proof.
  intros Hswitch. rewrite bind_run.
  destruct (OpenFile_world name σ) as [_ Hc].
  destruct (OpenFile name σ) as [[file|e] σ']; cbn in *; [|done].
  by rewrite Hswitch.
Qed.

Lemma main_Perform_created args σ :
  created (index args "fileName") (fsys σ) (fsys (MainGo.Perform args σ).2).
Proof.
  unfold MainGo.Perform. cbv zeta.
  repeat (case_decide; [by left|]).
  apply after_open_created. intros file.
  repeat (case_decide; try frames_ops).
Qed.

Lemma part_Perform_created args σ :
  created (index args "fileName") (fsys σ) (fsys (Part000.Perform args σ).2).
Proof.
  unfold Part000.Perform. cbv zeta.
  repeat (case_decide; [by left|]).
  apply after_open_created. intros file.
  repeat (case_decide; try frames_ops).
Qed.

(** The first two tests of [Perform] come before anything else. *)
Lemma Perform_no_fileName args σ :
  index args "fileName" = "" →
  MainGo.Perform args σ = (Err ErrFileNameFlagMissing, σ) ∧
  Part000.Perform args σ = (Err ErrFileNameFlagMissing, σ).
Proof.
  intros H. unfold MainGo.Perform, Part000.Perform. cbv zeta.
  rewrite !decide_True by done. done.
Qed.

Lemma Perform_no_operation args σ :
  index args "fileName" ≠ "" →
  index args "operation" = "" →
  MainGo.Perform args σ = (Err ErrOperationFlagMissing, σ) ∧
  Part000.Perform args σ = (Err ErrOperationFlagMissing, σ).
Proof.
  intros Hf Ho. unfold MainGo.Perform, Part000.Perform. cbv zeta.
  rewrite !(decide_False (P := index args "fileName" = "")) by done.
  rewrite !decide_True by done. done.
Qed.

(** The tests of [-item] and [-id] come after the file has been opened. *)
Lemma Perform_no_item args σ :
  index args "fileName" ≠ "" →
  openable (fsys σ) (index args "fileName") →
  index args "operation" = "add" →
  index args "item" = "" →
  MainGo.Perform args σ = (Err ErrItemFlagMissing, (OpenFile (index args "fileName") σ).2) ∧
  Part000.Perform args σ = (Err ErrItemFlagMissing, (OpenFile (index args "fileName") σ).2).
Proof.
  intros Hf Hopen%(OpenFile_openable _ σ) Ho Hi.
  unfold MainGo.Perform, Part000.Perform. rewrite Ho, Hi.
  split; perform_returns Hopen.
Qed.

Lemma Perform_no_id args σ :
  index args "fileName" ≠ "" →
  openable (fsys σ) (index args "fileName") →
  index args "operation" = "findById" ∨ index args "operation" = "remove" →
  index args "id" = "" →
  MainGo.Perform args σ = (Err ErrIDFlagMissing, (OpenFile (index args "fileName") σ).2) ∧
  Part000.Perform args σ = (Err ErrIDFlagMissing, (OpenFile (index args "fileName") σ).2).
Proof.
  intros Hf Hopen%(OpenFile_openable _ σ) Ho Hi.
  unfold MainGo.Perform, Part000.Perform. rewrite Hi.
  destruct Ho as [-> | ->]; split; perform_returns Hopen.
Qed.

Lemma Perform_unknown args σ :
  index args "fileName" ≠ "" →
  openable (fsys σ) (index args "fileName") →
  index args "operation" ∉ ["add"; "list"; "findById"; "remove"; ""] →
  MainGo.Perform args σ =
    (Err (Errorf ("Operation " +:+ index args "operation" +:+ " not allowed!")),
     (OpenFile (index args "fileName") σ).2) ∧
  Part000.Perform args σ =
    (Err (Errorf ("Operation " +:+ index args "operation" +:+ " not allowed!")),
     (OpenFile (index args "fileName") σ).2).
Proof.
  intros Hf Hopen%(OpenFile_openable _ σ) Ho.
  rewrite !not_elem_of_cons in Ho. destruct Ho as (? & ? & ? & ? & ? & _).
  unfold MainGo.Perform, Part000.Perform.
  split; perform_returns Hopen.
Qed.

(** A file that cannot be opened ends [Perform] before the operation is
    looked at. *)
Lemma Perform_directory args σ :
  index args "fileName" ≠ "" →
  index args "operation" ≠ "" →
  fsys σ !! index args "fileName" = Some Directory →
  MainGo.Perform args σ =
    (Err (ErrOS ("open " +:+ index args "fileName" +:+ ": is a directory")), σ) ∧
  Part000.Perform args σ =
    (Err (ErrOS ("open " +:+ index args "fileName" +:+ ": is a directory")), σ).
Proof.
  intros Hf Ho Hdir. unfold MainGo.Perform, Part000.Perform. cbv zeta.
  rewrite !decide_False by done.
  rewrite !bind_run, !OpenFile_directory by done. done.
Qed.

End PerformLaws.

(** * The claims *)

(** ** C1 *)

(** C1: when the content of the backing file decodes to a sequence of
    records and the item decodes to a record, [addItem] (in both versions)
    writes "Item with id {id} already exists" if some record has the id of
    the new one, and otherwise writes the encoding of the sequence with the
    new record appended at its end; in either case the file system, and so
    the stored collection, is what it was. *)
Theorem addItem_collision_or_append {W : Type} {Wr : Writer W} {J : Codec}
    (file : File) (item data : string) (items : Users) (user : User) (σ : world W) :
  fsys σ !! path file = Some (Regular data) →
  decodeUsers data = inr items →
  decodeUser item = inr user →
  ((∃ u, u ∈ elems items ∧ ID u = ID user) →
     MainGo.addItem file item σ =
       emit ("Item with id " +:+ ID user +:+ " already exists") σ ∧
     Part000.addItem file item σ =
       emit ("Item with id " +:+ ID user +:+ " already exists") σ) ∧
  ((∀ u, u ∈ elems items → ID u ≠ ID user) →
     MainGo.addItem file item σ = emit (encodeUsers (Some (elems items ++ [user]))) σ ∧
     Part000.addItem file item σ = emit (encodeUsers (Some (elems items ++ [user]))) σ) ∧
  fsys (MainGo.addItem file item σ).2 = fsys σ ∧
  fsys (Part000.addItem file item σ).2 = fsys σ.
Proof.
  intros Hf Hd Hi. split; [|split; [|split]].
  - intros Hex.
    destruct (first_match_split (λ u, ID u = ID user) (elems items) Hex)
      as (l1 & u & l2 & Hsplit & Hl1 & Hu).
    split; [eapply main_addItem_dup | eapply part_addItem_dup]; eauto.
  - intros Hall. apply Forall_forall in Hall.
    split; [eapply main_addItem_fresh | eapply part_addItem_fresh]; eauto.
  - apply frames_main_addItem.
  - apply frames_part_addItem.
Qed.

(** On a file that holds the record of id 1: a second record of id 1 is
    refused, a record of id 2 is appended. *)
Lemma addItem_collision_or_append_witness :
  let σ := store ("[" +:+ aliceText +:+ "]") in
  (MainGo.addItem (Wr := Buffer) (J := GoJSON) usersFile carolText σ =
     (Ok tt, mkWorld (fsys σ) "Item with id 1 already exists") ∧
   Part000.addItem (Wr := Buffer) (J := GoJSON) usersFile carolText σ =
     (Ok tt, mkWorld (fsys σ) "Item with id 1 already exists")) ∧
  (MainGo.addItem (Wr := Buffer) (J := GoJSON) usersFile bobText σ =
     (Ok tt, mkWorld (fsys σ) ("[" +:+ aliceText +:+ "," +:+ bobText +:+ "]")) ∧
   Part000.addItem (Wr := Buffer) (J := GoJSON) usersFile bobText σ =
     (Ok tt, mkWorld (fsys σ) ("[" +:+ aliceText +:+ "," +:+ bobText +:+ "]"))).
Proof.
  intros σ. split.
  - destruct (addItem_collision_or_append (Wr := Buffer) (J := GoJSON)
      usersFile carolText ("[" +:+ aliceText +:+ "]") (Some [alice]) carol σ)
      as (Hdup & _); [reflexivity..|].
    destruct Hdup as [-> ->]; [exists alice; split; [left|reflexivity]|].
    split; reflexivity.
  - destruct (addItem_collision_or_append (Wr := Buffer) (J := GoJSON)
      usersFile bobText ("[" +:+ aliceText +:+ "]") (Some [alice]) bob σ)
      as (_ & Hfresh & _); [reflexivity..|].
    destruct Hfresh as [-> ->].
    + intros u ->%list_elem_of_singleton. vm_compute. discriminate.
    + split; reflexivity.
Defined.

(** ** C2 *)

(** C2: [findUserById] (the same in both versions), for every id: on a
    file of zero bytes it writes the empty string; on non-empty content
    that decodes and holds no record of that id it writes the empty string;
    on content that decodes and holds such a record it writes the encoding
    of the first one, and that is its only write.  (The last part says that
    a first such record exists whenever some record has the id.) *)
Theorem findUserById_outputs {W : Type} {Wr : Writer W} {J : Codec}
    (file : File) (id : string) (σ : world W) :
  (fsys σ !! path file = Some (Regular "") →
     findUserById file id σ = emit "" σ) ∧
  (∀ data items,
     fsys σ !! path file = Some (Regular data) →
     String.length data ≠ 0 →
     decodeUsers data = inr items →
     (∀ u, u ∈ elems items → ID u ≠ id) →
     findUserById file id σ = emit "" σ) ∧
  (∀ data items l1 u l2,
     fsys σ !! path file = Some (Regular data) →
     decodeUsers data = inr items →
     first_with id (elems items) l1 u l2 →
     findUserById file id σ = emit (encodeUser u) σ) ∧
  (∀ items : Users,
     (∃ u, u ∈ elems items ∧ ID u = id) →
     ∃ l1 u l2, first_with id (elems items) l1 u l2).
Proof.
  split; [|split; [|split]].
  - apply findUserById_empty.
  - intros data items Hf Hlen Hd Hall. apply Forall_forall in Hall.
    by eapply findUserById_absent.
  - intros data items l1 u l2 Hf Hd (Hsplit & Hl1 & Hu).
    by eapply findUserById_first.
  - intros items Hex. by apply (first_match_split (λ u, ID u = id)).
Qed.

(** Two records of id 1 in the file: the first is the one written. *)
Lemma findUserById_outputs_witness :
  findUserById (Wr := Buffer) (J := GoJSON) usersFile "1" (store "") =
    (Ok tt, store "") ∧
  (let σ := store ("[" +:+ bobText +:+ "]") in
   findUserById (Wr := Buffer) (J := GoJSON) usersFile "1" σ = (Ok tt, σ)) ∧
  (let σ := store ("[" +:+ bobText +:+ "," +:+ aliceText +:+ "," +:+ carolText +:+ "]") in
   findUserById (Wr := Buffer) (J := GoJSON) usersFile "1" σ =
     (Ok tt, mkWorld (fsys σ) aliceText)).
Proof.
  split; [|split]; [|intros σ..].
  - destruct (findUserById_outputs (Wr := Buffer) (J := GoJSON)
      usersFile "1" (store "")) as (-> & _); reflexivity.
  - destruct (findUserById_outputs (Wr := Buffer) (J := GoJSON)
      usersFile "1" σ) as (_ & Habsent & _).
    rewrite (Habsent ("[" +:+ bobText +:+ "]") (Some [bob]));
      [reflexivity | reflexivity | vm_compute; lia | reflexivity |].
    intros u ->%list_elem_of_singleton. vm_compute. discriminate.
  - destruct (findUserById_outputs (Wr := Buffer) (J := GoJSON)
      usersFile "1" σ) as (_ & _ & Hfirst & _).
    rewrite (Hfirst ("[" +:+ bobText +:+ "," +:+ aliceText +:+ "," +:+ carolText +:+ "]")
      (Some [bob; alice; carol]) [bob] alice [carol]);
      [reflexivity | reflexivity | reflexivity |].
    split; [reflexivity|]. split; [|reflexivity].
    constructor; [vm_compute; discriminate | constructor].
Defined.

(** ** C3 *)

(** C3: on the file that holds the record of id 1, removing id 2.  main.go
    writes "Item with id 2 not found"; the second version writes the
    sequence it read, and no message. *)
Theorem removeUser_absent_id_diverges :
  let fs := fsys (store ("[" +:+ aliceText +:+ "]")) in
  let remove2 := parseArgs "2" "remove" "" "users.json" in
  session (MainGo.Perform (Wr := Buffer) (J := GoJSON)) fs [remove2] =
    (fs, [(Ok tt, "Item with id 2 not found")]) ∧
  session (Part000.Perform (Wr := Buffer) (J := GoJSON)) fs [remove2] =
    (fs, [(Ok tt, "[" +:+ aliceText +:+ "]")]).
Proof. split; vm_compute; reflexivity. Qed.

(** ** C4 *)

(** C4: on the file that holds the empty array, two adds of records with
    distinct ids and then a list.  Each add writes a one-record array to
    its output, the file still holds the empty array, and the list writes
    the empty array: it decodes to no record. *)
Theorem adds_then_list_forgets :
  let fs := fsys (store "[]") in
  let invocations :=
    [parseArgs "" "add" aliceText "users.json";
     parseArgs "" "add" bobText "users.json";
     parseArgs "" "list" "" "users.json"] in
  let outcome :=
    (fs, [(Ok tt, "[" +:+ aliceText +:+ "]");
          (Ok tt, "[" +:+ bobText +:+ "]");
          (Ok tt, "[]")]) in
  session (MainGo.Perform (Wr := Buffer) (J := GoJSON)) fs invocations = outcome ∧
  session (Part000.Perform (Wr := Buffer) (J := GoJSON)) fs invocations = outcome ∧
  JSON.decodeUsers "[]" = inr (Some []).
Proof. repeat split; vm_compute; reflexivity. Qed.

(** ** C5 *)

(** C5: on the empty file, main.go's [addItem] does not decode the item:
    text that is not JSON is written to the output and the operation
    succeeds.  (The second version fails there, with the error of decoding
    the zero bytes of the file.) *)
Theorem addItem_empty_file_skips_decoding :
  let fs := fsys (store "") in
  let add := parseArgs "" "add" "not json" "users.json" in
  JSON.decodeUser "not json" = inl "invalid character in JSON input" ∧
  session (MainGo.Perform (Wr := Buffer) (J := GoJSON)) fs [add] =
    (fs, [(Ok tt, "not json")]) ∧
  session (Part000.Perform (Wr := Buffer) (J := GoJSON)) fs [add] =
    (fs, [(Err (ErrJSON "unexpected end of JSON input"), "")]).
Proof. repeat split; vm_compute; reflexivity. Qed.

(** ** C6 *)

(** C6: on the empty file, adding the record of id 1.  main.go writes the
    text of the item as it came, not an array around it; the second version
    writes nothing and returns the error of decoding zero bytes. *)
Theorem addItem_empty_file_output :
  let fs := fsys (store "") in
  let add := parseArgs "" "add" aliceText "users.json" in
  session (MainGo.Perform (Wr := Buffer) (J := GoJSON)) fs [add] =
    (fs, [(Ok tt, aliceText)]) ∧
  aliceText ≠ "[" +:+ aliceText +:+ "]" ∧
  session (Part000.Perform (Wr := Buffer) (J := GoJSON)) fs [add] =
    (fs, [(Err (ErrJSON "unexpected end of JSON input"), "")]).
Proof. repeat split; vm_compute; try reflexivity. discriminate. Qed.

(** ** C7 *)

(** C7, amended: when [fileName] is not empty and the file can be opened
    (or created), every operation string other than "add", "list",
    "findById", "remove" and the empty string makes [Perform] return the
    error whose text is "Operation {value} not allowed!", and the output is
    what it was. *)
Theorem unknown_operation_rejected {W : Type} {Wr : Writer W} {J : Codec}
    (args : Arguments) (σ : world W) :
  index args "fileName" ≠ "" →
  openable (fsys σ) (index args "fileName") →
  index args "operation" ∉ ["add"; "list"; "findById"; "remove"; ""] →
  let e := Errorf ("Operation " +:+ index args "operation" +:+ " not allowed!") in
  Error e = "Operation " +:+ index args "operation" +:+ " not allowed!" ∧
  (MainGo.Perform args σ).1 = Err e ∧ out (MainGo.Perform args σ).2 = out σ ∧
  (Part000.Perform args σ).1 = Err e ∧ out (Part000.Perform args σ).2 = out σ.
Proof.
  intros Hf Hopen Ho e.
  destruct (Perform_unknown args σ Hf Hopen Ho) as [-> ->].
  destruct (OpenFile_world (index args "fileName") σ) as [Hout _].
  by repeat split.
Qed.

Lemma unknown_operation_rejected_witness :
  let args := parseArgs "" "sort" "" "users.json" in
  (MainGo.Perform (Wr := Buffer) (J := GoJSON) args (store "[]")).1 =
    Err (Errorf "Operation sort not allowed!") ∧
  out (MainGo.Perform (Wr := Buffer) (J := GoJSON) args (store "[]")).2 = "".
Proof.
  intros args.
  destruct (unknown_operation_rejected (Wr := Buffer) (J := GoJSON) args (store "[]"))
    as (_ & Hr & Hout & _).
  - vm_compute. discriminate.
  - vm_compute. discriminate.
  - rewrite !not_elem_of_cons.
    repeat split; try (vm_compute; discriminate). apply not_elem_of_nil.
  - split; [exact Hr | exact Hout].
Defined.

(** The claim as first stated fails when [-fileName] is not given: the
    operation "sort" is not one of the four, and the error is the missing
    flag's. *)
Lemma unknown_operation_without_fileName :
  let args := parseArgs "" "sort" "" "" in
  index args "operation" = "sort" ∧
  (MainGo.Perform (Wr := Buffer) (J := GoJSON) args fresh).1 = Err ErrFileNameFlagMissing ∧
  (Part000.Perform (Wr := Buffer) (J := GoJSON) args fresh).1 = Err ErrFileNameFlagMissing ∧
  Error ErrFileNameFlagMissing ≠ "Operation sort not allowed!".
Proof. repeat split; vm_compute; try reflexivity. discriminate. Qed.

(** ** C8 *)

(** C8, amended: the four missing-flag errors are distinct values with
    distinct texts, and [Perform] tests the flags in this order: it returns
    the error of [-fileName] when that is empty; the error of [-operation]
    when [-fileName] is given and the operation is empty; and, after the
    file has been opened (or created), the error of [-item] when the item
    is empty for "add", and the error of [-id] when the id is empty for
    "findById" or "remove".  In each case none of the four operations runs
    and the output is what it was. *)
Theorem missing_flag_errors {W : Type} {Wr : Writer W} {J : Codec}
    (args : Arguments) (σ : world W) :
  let name := index args "fileName" in
  let operation := index args "operation" in
  NoDup [ErrFileNameFlagMissing; ErrOperationFlagMissing; ErrItemFlagMissing;
         ErrIDFlagMissing] ∧
  NoDup (Error <$> [ErrFileNameFlagMissing; ErrOperationFlagMissing;
                    ErrItemFlagMissing; ErrIDFlagMissing]) ∧
  (name = "" →
     MainGo.Perform args σ = (Err ErrFileNameFlagMissing, σ) ∧
     Part000.Perform args σ = (Err ErrFileNameFlagMissing, σ)) ∧
  (name ≠ "" → operation = "" →
     MainGo.Perform args σ = (Err ErrOperationFlagMissing, σ) ∧
     Part000.Perform args σ = (Err ErrOperationFlagMissing, σ)) ∧
  (name ≠ "" → openable (fsys σ) name → operation = "add" → index args "item" = "" →
     MainGo.Perform args σ = (Err ErrItemFlagMissing, (OpenFile name σ).2) ∧
     Part000.Perform args σ = (Err ErrItemFlagMissing, (OpenFile name σ).2)) ∧
  (name ≠ "" → openable (fsys σ) name →
     operation = "findById" ∨ operation = "remove" → index args "id" = "" →
     MainGo.Perform args σ = (Err ErrIDFlagMissing, (OpenFile name σ).2) ∧
     Part000.Perform args σ = (Err ErrIDFlagMissing, (OpenFile name σ).2)) ∧
  out (OpenFile name σ).2 = out σ.
Proof.
  intros name operation. split; [|split].
  - repeat (constructor; [rewrite ?elem_of_cons, elem_of_nil; intuition discriminate|]).
    constructor.
  - cbn. repeat (constructor; [rewrite ?elem_of_cons, elem_of_nil; intuition discriminate|]).
    constructor.
  - split; [apply Perform_no_fileName|].
    split; [apply Perform_no_operation|].
    split; [apply Perform_no_item|].
    split; [apply Perform_no_id|].
    apply OpenFile_world.
Qed.

(** [-item] missing for "add", and [-id] missing for "remove", the file
    being there: the error is the flag's and the output stays empty. *)
Lemma missing_flag_errors_witness :
  let σ := store "[]" in
  MainGo.Perform (Wr := Buffer) (J := GoJSON) (parseArgs "" "add" "" "users.json") σ =
    (Err ErrItemFlagMissing, σ) ∧
  Part000.Perform (Wr := Buffer) (J := GoJSON) (parseArgs "" "remove" "" "users.json") σ =
    (Err ErrIDFlagMissing, σ) ∧
  MainGo.Perform (Wr := Buffer) (J := GoJSON) (parseArgs "" "" "" "users.json") σ =
    (Err ErrOperationFlagMissing, σ).
Proof.
  intros σ. split; [|split].
  - destruct (missing_flag_errors (Wr := Buffer) (J := GoJSON)
      (parseArgs "" "add" "" "users.json") σ) as (_ & _ & _ & _ & Hitem & _).
    destruct Hitem as [-> _]; [vm_compute; discriminate..|reflexivity|reflexivity|].
    reflexivity.
  - destruct (missing_flag_errors (Wr := Buffer) (J := GoJSON)
      (parseArgs "" "remove" "" "users.json") σ) as (_ & _ & _ & _ & _ & Hid & _).
    destruct Hid as [_ ->];
      [vm_compute; discriminate..|right; reflexivity|reflexivity|].
    reflexivity.
  - destruct (missing_flag_errors (Wr := Buffer) (J := GoJSON)
      (parseArgs "" "" "" "users.json") σ) as (_ & _ & _ & Hop & _).
    destruct Hop as [-> _]; [vm_compute; discriminate|reflexivity|].
    reflexivity.
Defined.

(** The claim as first stated fails in two places: with no flag at all the
    operation is empty and the error is the one of [-fileName]; and when
    the file cannot be opened, "add" without an item returns the error of
    the open, which is no missing-flag error. *)
Lemma missing_flag_claim_fails :
  (let args := parseArgs "" "" "" "" in
   index args "operation" = "" ∧
   (MainGo.Perform (Wr := Buffer) (J := GoJSON) args fresh).1 = Err ErrFileNameFlagMissing ∧
   (Part000.Perform (Wr := Buffer) (J := GoJSON) args fresh).1 = Err ErrFileNameFlagMissing ∧
   ErrFileNameFlagMissing ≠ ErrOperationFlagMissing) ∧
  (let args := parseArgs "" "add" "" "/tmp" in
   let σ := mkWorld {[ "/tmp" := Directory ]} "" in
   index args "operation" = "add" ∧ index args "item" = "" ∧
   (MainGo.Perform (Wr := Buffer) (J := GoJSON) args σ).1 =
     Err (ErrOS "open /tmp: is a directory") ∧
   (Part000.Perform (Wr := Buffer) (J := GoJSON) args σ).1 =
     Err (ErrOS "open /tmp: is a directory") ∧
   ErrOS "open /tmp: is a directory" ≠ ErrItemFlagMissing).
Proof. repeat split; vm_compute; try reflexivity; discriminate. Qed.

(** ** C9 *)

(** C9: in every operation of both versions, a failed read, a failed
    decoding of the content (where the operation decodes it: the content is
    not empty, or the operation is the second version's [addItem]) and a
    failed decoding of the item each end the operation with that error, no
    write made: the world is what it was. *)
Theorem failures_write_nothing {W : Type} {Wr : Writer W} {J : Codec}
    (file : File) (item id : string) (σ : world W) :
  (∀ e, ReadAll file σ = (Err e, σ) →
     MainGo.addItem file item σ = (Err e, σ) ∧
     Part000.addItem file item σ = (Err e, σ) ∧
     listItems file σ = (Err e, σ) ∧
     findUserById file id σ = (Err e, σ) ∧
     MainGo.removeUser file id σ = (Err e, σ) ∧
     Part000.removeUser file id σ = (Err e, σ)) ∧
  (∀ data msg,
     fsys σ !! path file = Some (Regular data) →
     String.length data ≠ 0 →
     decodeUsers data = inl msg →
     MainGo.addItem file item σ = (Err (ErrJSON msg), σ) ∧
     listItems file σ = (Err (ErrJSON msg), σ) ∧
     findUserById file id σ = (Err (ErrJSON msg), σ) ∧
     MainGo.removeUser file id σ = (Err (ErrJSON msg), σ) ∧
     Part000.removeUser file id σ = (Err (ErrJSON msg), σ)) ∧
  (∀ data msg,
     fsys σ !! path file = Some (Regular data) →
     decodeUsers data = inl msg →
     Part000.addItem file item σ = (Err (ErrJSON msg), σ)) ∧
  (∀ data items msg,
     fsys σ !! path file = Some (Regular data) →
     decodeUsers data = inr items →
     decodeUser item = inl msg →
     MainGo.addItem file item σ = (Err (ErrJSON msg), σ) ∧
     Part000.addItem file item σ = (Err (ErrJSON msg), σ)).
Proof.
  split; [|split; [|split]].
  - intros e. apply read_failure.
  - intros data msg. apply content_failure.
  - intros data msg. apply part_addItem_content_failure.
  - intros data items msg. apply item_failure.
Qed.

(** A device error on read, a file that is not JSON, and an item that is
    not JSON. *)
Lemma failures_write_nothing_witness :
  (let σ := mkWorld {[ "users.json" := Unreadable "read users.json: input/output error" ]} "" in
   listItems (Wr := Buffer) (J := GoJSON) usersFile σ =
     (Err (ErrOS "read users.json: input/output error"), σ)) ∧
  (let σ := store "{" in
   MainGo.removeUser (Wr := Buffer) (J := GoJSON) usersFile "1" σ =
     (Err (ErrJSON "invalid JSON input"), σ)) ∧
  (let σ := store "[]" in
   MainGo.addItem (Wr := Buffer) (J := GoJSON) usersFile "not json" σ =
     (Err (ErrJSON "invalid character in JSON input"), σ)).
Proof.
  split; [|split]; intros σ.
  - destruct (failures_write_nothing (Wr := Buffer) (J := GoJSON)
      usersFile "" "" σ) as (Hread & _).
    destruct (Hread (ErrOS "read users.json: input/output error"))
      as (_ & _ & -> & _); reflexivity.
  - destruct (failures_write_nothing (Wr := Buffer) (J := GoJSON)
      usersFile "" "1" σ) as (_ & Hcontent & _).
    destruct (Hcontent "{" "invalid JSON input") as (_ & _ & _ & -> & _);
      [reflexivity | vm_compute; lia | reflexivity | reflexivity].
  - destruct (failures_write_nothing (Wr := Buffer) (J := GoJSON)
      usersFile "not json" "" σ) as (_ & _ & _ & Hitem).
    destruct (Hitem "[]" (Some []) "invalid character in JSON input") as (-> & _);
      reflexivity.
Defined.

(** ** C10 *)

(** C10: an invocation of [Perform] (either version, any arguments) leaves
    every file that existed with the content it had; the only change to the
    file system is that the backing file, if absent, now exists and is
    empty.  The four operations themselves change nothing in the file
    system: what they produce goes to the writer. *)
Theorem backing_file_only_read {W : Type} {Wr : Writer W} {J : Codec}
    (args : Arguments) (σ : world W) :
  created (index args "fileName") (fsys σ) (fsys (MainGo.Perform args σ).2) ∧
  created (index args "fileName") (fsys σ) (fsys (Part000.Perform args σ).2) ∧
  (∀ p n, fsys σ !! p = Some n →
     fsys (MainGo.Perform args σ).2 !! p = Some n ∧
     fsys (Part000.Perform args σ).2 !! p = Some n) ∧
  (∀ file item id,
     frames (MainGo.addItem file item : M W unit) ∧
     frames (Part000.addItem file item : M W unit) ∧
     frames (listItems file : M W unit) ∧
     frames (findUserById file id : M W unit) ∧
     frames (MainGo.removeUser file id : M W unit) ∧
     frames (Part000.removeUser file id : M W unit)).
Proof.
  pose proof (main_Perform_created args σ) as Hmain.
  pose proof (part_Perform_created args σ) as Hpart.
  split; [done|]. split; [done|]. split.
  - intros p n Hp. split; eapply created_keeps; eauto.
  - intros file item id.
    repeat split; auto using frames_main_addItem, frames_part_addItem,
      frames_listItems, frames_findUserById, frames_main_removeUser,
      frames_part_removeUser.
Qed.

(** After an add and after a remove the file holds what it held. *)
Lemma backing_file_only_read_witness :
  let σ := store ("[" +:+ aliceText +:+ "]") in
  fsys (MainGo.Perform (Wr := Buffer) (J := GoJSON)
          (parseArgs "" "add" bobText "users.json") σ).2 !! "users.json" =
    Some (Regular ("[" +:+ aliceText +:+ "]")) ∧
  fsys (Part000.Perform (Wr := Buffer) (J := GoJSON)
          (parseArgs "1" "remove" "" "users.json") σ).2 !! "users.json" =
    Some (Regular ("[" +:+ aliceText +:+ "]")).
Proof.
  intros σ. split.
  - destruct (backing_file_only_read (Wr := Buffer) (J := GoJSON)
      (parseArgs "" "add" bobText "users.json") σ) as (_ & _ & Hkeep & _).
    apply Hkeep. reflexivity.
  - destruct (backing_file_only_read (Wr := Buffer) (J := GoJSON)
      (parseArgs "1" "remove" "" "users.json") σ) as (_ & _ & Hkeep & _).
    apply Hkeep. reflexivity.
Defined.

(** * Further properties of the two versions *)

(** main.go's [removeUser] on non-empty content that decodes: the first
    record with the id is taken out and the others are written in their
    order; when no record has the id the message is written.  The file
    system is what it was. *)
Theorem main_removeUser_outputs {W : Type} {Wr : Writer W} {J : Codec}
    (file : File) (id data : string) (items : Users) (σ : world W) :
  fsys σ !! path file = Some (Regular data) →
  String.length data ≠ 0 →
  decodeUsers data = inr items →
  (∀ l1 u l2, first_with id (elems items) l1 u l2 →
     MainGo.removeUser file id σ = emit (encodeUsers (Some (l1 ++ l2))) σ) ∧
  ((∀ u, u ∈ elems items → ID u ≠ id) →
     MainGo.removeUser file id σ = emit ("Item with id " +:+ id +:+ " not found") σ) ∧
  fsys (MainGo.removeUser file id σ).2 = fsys σ.
Proof.
  intros Hf Hlen Hd. split; [|split].
  - intros l1 u l2 (Hsplit & Hl1 & Hu). by eapply main_removeUser_first.
  - intros Hall. apply Forall_forall in Hall. by eapply main_removeUser_absent.
  - apply frames_main_removeUser.
Qed.

Lemma main_removeUser_outputs_witness :
  let σ := store ("[" +:+ bobText +:+ "," +:+ aliceText +:+ "," +:+ carolText +:+ "]") in
  MainGo.removeUser (Wr := Buffer) (J := GoJSON) usersFile "1" σ =
    (Ok tt, mkWorld (fsys σ) ("[" +:+ bobText +:+ "," +:+ carolText +:+ "]")) ∧
  MainGo.removeUser (Wr := Buffer) (J := GoJSON) usersFile "3" σ =
    (Ok tt, mkWorld (fsys σ) "Item with id 3 not found").
Proof.
  intros σ.
  destruct (main_removeUser_outputs (Wr := Buffer) (J := GoJSON) usersFile "1"
    ("[" +:+ bobText +:+ "," +:+ aliceText +:+ "," +:+ carolText +:+ "]")
    (Some [bob; alice; carol]) σ) as (Hfirst & _);
    [reflexivity | vm_compute; lia | reflexivity |].
  destruct (main_removeUser_outputs (Wr := Buffer) (J := GoJSON) usersFile "3"
    ("[" +:+ bobText +:+ "," +:+ aliceText +:+ "," +:+ carolText +:+ "]")
    (Some [bob; alice; carol]) σ) as (_ & Habsent & _);
    [reflexivity | vm_compute; lia | reflexivity |].
  split.
  - rewrite (Hfirst [bob] alice [carol]); [reflexivity|].
    split; [reflexivity|]. split; [|reflexivity].
    constructor; [vm_compute; discriminate | constructor].
  - rewrite Habsent; [reflexivity|].
    intros u Hu. change (u ∈ [bob; alice; carol]) in Hu.
    rewrite !elem_of_cons, elem_of_nil in Hu.
    destruct Hu as [->|[->|[->|[]]]]; vm_compute; discriminate.
Defined.

(** The second version's [removeUser]: on the empty file it writes the
    message; on non-empty content that decodes it writes the sequence
    without the first record that has the id, and the sequence as it read
    it when no record has the id. *)
Theorem part_removeUser_outputs {W : Type} {Wr : Writer W} {J : Codec}
    (file : File) (id : string) (σ : world W) :
  (fsys σ !! path file = Some (Regular "") →
     Part000.removeUser file id σ = emit ("Item with id " +:+ id +:+ " not found") σ) ∧
  (∀ data items l1 u l2,
     fsys σ !! path file = Some (Regular data) →
     String.length data ≠ 0 →
     decodeUsers data = inr items →
     first_with id (elems items) l1 u l2 →
     Part000.removeUser file id σ = emit (encodeUsers (Some (l1 ++ l2))) σ) ∧
  (∀ data items,
     fsys σ !! path file = Some (Regular data) →
     String.length data ≠ 0 →
     decodeUsers data = inr items →
     (∀ u, u ∈ elems items → ID u ≠ id) →
     Part000.removeUser file id σ = emit (encodeUsers items) σ).
Proof.
  split; [|split].
  - apply part_removeUser_empty.
  - intros data items l1 u l2 Hf Hlen Hd (Hsplit & Hl1 & Hu).
    by eapply part_removeUser_first.
  - intros data items Hf Hlen Hd Hall. apply Forall_forall in Hall.
    by eapply part_removeUser_absent.
Qed.

Lemma part_removeUser_outputs_witness :
  Part000.removeUser (Wr := Buffer) (J := GoJSON) usersFile "1" (store "") =
    (Ok tt, mkWorld (fsys (store "")) "Item with id 1 not found") ∧
  (let σ := store ("[" +:+ aliceText +:+ "]") in
   Part000.removeUser (Wr := Buffer) (J := GoJSON) usersFile "1" σ =
     (Ok tt, mkWorld (fsys σ) "[]") ∧
   Part000.removeUser (Wr := Buffer) (J := GoJSON) usersFile "2" σ =
     (Ok tt, mkWorld (fsys σ) ("[" +:+ aliceText +:+ "]"))).
Proof.
  split; [|intros σ; split].
  - destruct (part_removeUser_outputs (Wr := Buffer) (J := GoJSON)
      usersFile "1" (store "")) as (-> & _); reflexivity.
  - destruct (part_removeUser_outputs (Wr := Buffer) (J := GoJSON)
      usersFile "1" σ) as (_ & Hfirst & _).
    rewrite (Hfirst ("[" +:+ aliceText +:+ "]") (Some [alice]) [] alice []);
      [reflexivity | reflexivity | vm_compute; lia | reflexivity |].
    split; [reflexivity|]. split; [constructor | reflexivity].
  - destruct (part_removeUser_outputs (Wr := Buffer) (J := GoJSON)
      usersFile "2" σ) as (_ & _ & Habsent).
    rewrite (Habsent ("[" +:+ aliceText +:+ "]") (Some [alice]));
      [reflexivity | reflexivity | vm_compute; lia | reflexivity |].
    intros u ->%list_elem_of_singleton. vm_compute. discriminate.
Defined.

(** [listItems] (the same in both versions): the empty string for the empty
    file, and otherwise the encoding of what the content decodes to. *)
Theorem listItems_outputs {W : Type} {Wr : Writer W} {J : Codec}
    (file : File) (σ : world W) :
  (fsys σ !! path file = Some (Regular "") → listItems file σ = emit "" σ) ∧
  (∀ data items,
     fsys σ !! path file = Some (Regular data) →
     decodeUsers data = inr items →
     listItems file σ = emit (encodeUsers items) σ).
Proof.
  split; [apply listItems_empty|].
  intros data items. apply listItems_decoded.
Qed.

(** Spaces, an unknown key and an escape in the file; the listing is the
    compact form. *)
Lemma listItems_outputs_witness :
  listItems (Wr := Buffer) (J := GoJSON) usersFile (store "") = (Ok tt, store "") ∧
  (let content := json " [ { 'ID' : '1', 'email' : 'a@b.com', 'age' : 34, 'x' : [ ] } ] " in
   listItems (Wr := Buffer) (J := GoJSON) usersFile (store content) =
     (Ok tt, mkWorld (fsys (store content)) ("[" +:+ aliceText +:+ "]"))).
Proof.
  split; [|intros content].
  - destruct (listItems_outputs (Wr := Buffer) (J := GoJSON) usersFile (store ""))
      as (-> & _); reflexivity.
  - destruct (listItems_outputs (Wr := Buffer) (J := GoJSON) usersFile (store content))
      as (_ & Hdecoded).
    rewrite (Hdecoded content (Some [alice])); reflexivity.
Defined.

(** [addItem] on the empty file, for every item text: main.go writes the
    text; the second version returns the error of decoding zero bytes and
    writes nothing. *)
Theorem addItem_on_empty_file {W : Type} {Wr : Writer W} {J : Codec}
    (file : File) (item : string) (σ : world W) :
  fsys σ !! path file = Some (Regular "") →
  MainGo.addItem file item σ = emit item σ ∧
  ∃ msg, decodeUsers "" = inl msg ∧ Part000.addItem file item σ = (Err (ErrJSON msg), σ).
Proof.
  intros Hf. split; [by apply main_addItem_empty | by apply part_addItem_empty].
Qed.

Lemma addItem_on_empty_file_witness :
  MainGo.addItem (Wr := Buffer) (J := GoJSON) usersFile "]" (store "") =
    emit (Wr := Buffer) "]" (store "") ∧
  ∃ msg, JSON.decodeUsers "" = inl msg ∧
    Part000.addItem (Wr := Buffer) (J := GoJSON) usersFile "]" (store "") =
      (Err (ErrJSON msg), store "").
Proof.
  apply (addItem_on_empty_file (Wr := Buffer) (J := GoJSON) usersFile "]" (store "")).
  reflexivity.
Defined.

(** * The operations as a whole *)

(** ** Every outcome of an operation *)

Lemma length_zero_empty (data : string) : String.length data = 0 → data = "".
Proof. destruct data; [reflexivity | discriminate]. Qed.

(** A sequence either has a first record with the identifier or has none. *)
Lemma first_with_or_none (id : string) (l : list User) :
  (∃ l1 u l2, first_with id l l1 u l2) ∨ Forall (λ v, ID v ≠ id) l.
Proof.
  induction l as [|v l [(l1 & u & l2 & -> & Hl1 & Hu) | Hnone]].
  - right. constructor.
  - destruct (decide (ID v = id)) as [Hv|Hv].
    + left. exists [], v, (l1 ++ u :: l2). by repeat split.
    + left. exists (v :: l1), u, l2. repeat split; [|done]. by constructor.
  - destruct (decide (ID v = id)) as [Hv|Hv].
    + left. exists [], v, l. by repeat split.
    + right. by constructor.
Qed.

Section Outcomes.
Context {W : Type} {Wr : Writer W} {J : Codec}.
Implicit Types (file : File) (σ : world W) (items : Users).

Lemma ReadAll_cases file σ :
  (∃ data, fsys σ !! path file = Some (Regular data)) ∨
  (∃ e, ReadAll file σ = (Err e, σ)).
Proof.
  unfold ReadAll. destruct (fsys σ !! path file) as [[data| |reason]|]; eauto.
Qed.

Lemma emit_reliable (p : string) σ : reliable Wr → (emit p σ).1 = Ok tt.
Proof.
  intros Hrel. unfold emit, Write. rewrite bind_run.
  destruct (Hrel (out σ) p) as [n Hn].
  destruct (writeTo (out σ) p) as [r w]. cbn in Hn. subst r. reflexivity.
Qed.

(** Once content and item have decoded, [addItem] is one write. *)
Lemma main_addItem_decoded file item data items user σ :
  fsys σ !! path file = Some (Regular data) →
  decodeUsers data = inr items →
  decodeUser item = inr user →
  ∃ p, MainGo.addItem file item σ = emit p σ.
Proof.
  intros Hf Hd Hi.
  destruct (first_with_or_none (ID user) (elems items))
    as [(l1 & u & l2 & Hsplit & Hl1 & Hu) | Hnone]; eexists.
  - by eapply main_addItem_dup.
  - by eapply main_addItem_fresh.
Qed.

Lemma part_addItem_decoded file item data items user σ :
  fsys σ !! path file = Some (Regular data) →
  decodeUsers data = inr items →
  decodeUser item = inr user →
  ∃ p, Part000.addItem file item σ = emit p σ.
Proof.
  intros Hf Hd Hi.
  destruct (first_with_or_none (ID user) (elems items))
    as [(l1 & u & l2 & Hsplit & Hl1 & Hu) | Hnone]; eexists.
  - by eapply part_addItem_dup.
  - by eapply part_addItem_fresh.
Qed.

(** On content that is empty or decodes, the three other operations are
    one write, whatever the identifier. *)
Lemma listItems_readable file data σ :
  fsys σ !! path file = Some (Regular data) →
  data = "" ∨ decodes data →
  ∃ p, listItems file σ = emit p σ.
Proof.
  intros Hf [-> | [items Hd]]; eexists.
  - by apply listItems_empty.
  - by eapply listItems_decoded.
Qed.

Lemma findUserById_readable file id data σ :
  fsys σ !! path file = Some (Regular data) →
  data = "" ∨ decodes data →
  ∃ p, findUserById file id σ = emit p σ.
Proof.
  intros Hf [-> | [items Hd]].
  - eexists. by apply findUserById_empty.
  - destruct (first_with_or_none id (elems items))
      as [(l1 & u & l2 & Hsplit & Hl1 & Hu) | Hnone]; eexists.
    + by eapply findUserById_first.
    + eapply findUserById_absent; eauto using decoded_nonempty.
Qed.

Lemma main_removeUser_readable file id data σ :
  fsys σ !! path file = Some (Regular data) →
  data = "" ∨ decodes data →
  ∃ p, MainGo.removeUser file id σ = emit p σ.
Proof.
  intros Hf [-> | [items Hd]].
  - eexists. by apply main_removeUser_empty.
  - destruct (first_with_or_none id (elems items))
      as [(l1 & u & l2 & Hsplit & Hl1 & Hu) | Hnone]; eexists.
    + eapply main_removeUser_first; eauto using decoded_nonempty.
    + eapply main_removeUser_absent; eauto using decoded_nonempty.
Qed.

Lemma part_removeUser_readable file id data σ :
  fsys σ !! path file = Some (Regular data) →
  data = "" ∨ decodes data →
  ∃ p, Part000.removeUser file id σ = emit p σ.
Proof.
  intros Hf [-> | [items Hd]].
  - eexists. by apply part_removeUser_empty.
  - destruct (first_with_or_none id (elems items))
      as [(l1 & u & l2 & Hsplit & Hl1 & Hu) | Hnone]; eexists.
    + eapply part_removeUser_first; eauto using decoded_nonempty.
    + eapply part_removeUser_absent; eauto using decoded_nonempty.
Qed.

(** Content is empty, decodes, or is refused. *)
Lemma content_cases (data : string) :
  data = "" ∨ decodes data ∨ (String.length data ≠ 0 ∧ ∃ msg, decodeUsers data = inl msg).
Proof.
  destruct (decide (String.length data = 0)) as [Hlen|Hlen].
  - left. by apply length_zero_empty.
  - destruct (decodeUsers data) as [msg|items] eqn:Hd.
    + right. right. eauto.
    + right. left. by exists items.
Qed.

End Outcomes.

(** Each operation of either version, on every input and in every world,
    either returns an error before it has written anything, the world as it
    was, or makes exactly one write and returns the outcome of that write:
    no operation writes twice, and none fails after a write that
    succeeded. *)
Theorem operations_abort_or_write_once {W : Type} {Wr : Writer W} {J : Codec}
    (file : File) (item id : string) (σ : world W) :
  aborts_or_writes_once (MainGo.addItem file item) σ ∧
  aborts_or_writes_once (Part000.addItem file item) σ ∧
  aborts_or_writes_once (listItems file) σ ∧
  aborts_or_writes_once (findUserById file id) σ ∧
  aborts_or_writes_once (MainGo.removeUser file id) σ ∧
  aborts_or_writes_once (Part000.removeUser file id) σ.
Proof.
  unfold aborts_or_writes_once.
  destruct (ReadAll_cases file σ) as [[data Hf] | [e He]].
  2: { destruct (read_failure file item id e σ He) as (? & ? & ? & ? & ? & ?).
       repeat split; left; eauto. }
  destruct (content_cases data) as [-> | [Hdec | [Hlen [msg Hmsg]]]].
  - destruct (part_addItem_empty file item σ Hf) as (msg & _ & Hpart).
    repeat split; [right|left|right..]; eauto using main_addItem_empty,
      listItems_readable, findUserById_readable, main_removeUser_readable,
      part_removeUser_readable.
  - assert (∃ p, listItems file σ = emit p σ) by eauto using listItems_readable.
    assert (∃ p, findUserById file id σ = emit p σ) by eauto using findUserById_readable.
    assert (∃ p, MainGo.removeUser file id σ = emit p σ)
      by eauto using main_removeUser_readable.
    assert (∃ p, Part000.removeUser file id σ = emit p σ)
      by eauto using part_removeUser_readable.
    destruct Hdec as [items Hd].
    destruct (decodeUser item) as [msg|user] eqn:Hi.
    + destruct (item_failure file item data items msg σ Hf Hd Hi) as [? ?].
      repeat split; eauto.
    + repeat split; eauto using main_addItem_decoded, part_addItem_decoded.
  - destruct (content_failure file item id data msg σ Hf Hlen Hmsg)
      as (? & ? & ? & ? & ?).
    pose proof (part_addItem_content_failure file item data msg σ Hf Hmsg).
    repeat split; left; eauto.
Qed.

(** ** Perform and the file it opens *)

(** A path of [Perform] past the two flag tests, the outcome of the open
    known. *)
Ltac decide_flags :=
  repeat first [rewrite decide_False by done | rewrite decide_True by done].

Ltac perform_with Hopen :=
  cbv zeta; decide_flags; rewrite bind_run, Hopen; decide_flags.

Section PerformOpen.
Context {W : Type} {Wr : Writer W} {J : Codec}.
Implicit Types (args : Arguments) (σ : world W).

Lemma OpenFile_present (name : string) (n : node) σ :
  fsys σ !! name = Some n → n ≠ Directory → OpenFile name σ = (Ok (mkFile name), σ).
Proof. intros Hn Hdir. unfold OpenFile. rewrite Hn. by destruct n. Qed.


(** With every flag it needs and a file that opens, [Perform] is the
    operation on the opened file. *)
Lemma Perform_dispatch args (file : File) σ σ' :
  index args "fileName" ≠ "" →
  OpenFile (index args "fileName") σ = (Ok file, σ') →
  (index args "operation" = "add" → index args "item" ≠ "" →
     MainGo.Perform args σ = MainGo.addItem file (index args "item") σ' ∧
     Part000.Perform args σ = Part000.addItem file (index args "item") σ') ∧
  (index args "operation" = "list" →
     MainGo.Perform args σ = listItems file σ' ∧
     Part000.Perform args σ = listItems file σ') ∧
  (index args "operation" = "findById" → index args "id" ≠ "" →
     MainGo.Perform args σ = findUserById file (index args "id") σ' ∧
     Part000.Perform args σ = findUserById file (index args "id") σ') ∧
  (index args "operation" = "remove" → index args "id" ≠ "" →
     MainGo.Perform args σ = MainGo.removeUser file (index args "id") σ' ∧
     Part000.Perform args σ = Part000.removeUser file (index args "id") σ').
Proof.
  intros Hname Hopen. unfold MainGo.Perform, Part000.Perform.
  split; [|split; [|split]]; intros Hop; intros; rewrite Hop;
    split; perform_with Hopen; reflexivity.
Qed.

End PerformOpen.



(** When the file cannot be opened, [Perform] returns the error of the open
    for every non-empty operation string, a known one or not, with or
    without [-item] and [-id]; nothing is written and the file system is as
    it was. *)
Theorem Perform_unopenable {W : Type} {Wr : Writer W} {J : Codec}
    (args : Arguments) (σ : world W) :
  index args "fileName" ≠ "" →
  index args "operation" ≠ "" →
  ¬ openable (fsys σ) (index args "fileName") →
  ∃ e, OpenFile (index args "fileName") σ = (Err e, σ) ∧
       MainGo.Perform args σ = (Err e, σ) ∧
       Part000.Perform args σ = (Err e, σ).
Proof.
  intros Hname Hop Hopen.
  assert (fsys σ !! index args "fileName" = Some Directory) as Hdir.
  { unfold openable in Hopen.
    destruct (fsys σ !! index args "fileName") as [[data| |reason]|];
      [|reflexivity|..]; exfalso; apply Hopen; discriminate. }
  destruct (Perform_directory args σ Hname Hop Hdir) as [Hmain Hpart].
  eexists. split; [by apply OpenFile_directory|]. by split.
Qed.

Lemma Perform_unopenable_witness :
  let σ := mkWorld {[ "/tmp" := Directory ]} "" in
  ∃ e, MainGo.Perform (Wr := Buffer) (J := GoJSON)
         (parseArgs "" "sort" "" "/tmp") σ = (Err e, σ) ∧
       Part000.Perform (Wr := Buffer) (J := GoJSON)
         (parseArgs "1" "findById" "" "/tmp") σ = (Err e, σ).
Proof.
  intros σ.
  destruct (Perform_unopenable (Wr := Buffer) (J := GoJSON)
    (parseArgs "" "sort" "" "/tmp") σ) as (e & He & Hmain & _);
    [vm_compute; discriminate | vm_compute; discriminate | |].
  { intros Hopen. unfold openable in Hopen. by apply Hopen. }
  destruct (Perform_unopenable (Wr := Buffer) (J := GoJSON)
    (parseArgs "1" "findById" "" "/tmp") σ) as (e' & He' & _ & Hpart);
    [vm_compute; discriminate | vm_compute; discriminate | |].
  { intros Hopen. unfold openable in Hopen. by apply Hopen. }
  exists e. split; [exact Hmain|].
  rewrite Hpart. change (OpenFile "/tmp" σ = (Err e', σ)) in He'.
  change (OpenFile "/tmp" σ = (Err e, σ)) in He. congruence.
Defined.

(** ** Invocations one after the other *)

Lemma created_grown (name : string) (fs fs' : gmap string node) :
  created name fs fs' → grown fs fs'.
Proof.
  intros [-> | [Hnone ->]] p; [by left|].
  destruct (decide (name = p)) as [<-|Hne].
  - right. by rewrite lookup_insert_eq.
  - left. by rewrite lookup_insert_ne.
Qed.

Lemma grown_trans (fs1 fs2 fs3 : gmap string node) :
  grown fs1 fs2 → grown fs2 fs3 → grown fs1 fs3.
Proof.
  intros H12 H23 p. destruct (H12 p) as [E12 | [N1 E2]], (H23 p) as [E23 | [N2 E3]].
  - left. congruence.
  - right. split; congruence.
  - right. split; congruence.
  - congruence.
Qed.

Lemma session_grown (perform : Arguments → M string unit) :
  (∀ args σ, created (index args "fileName") (fsys σ) (fsys (perform args σ).2)) →
  ∀ invocations fs, grown fs (session perform fs invocations).1.
Proof.
  intros Hperform invocations.
  induction invocations as [|args rest IH]; intros fs; cbn [session].
  - intros p. by left.
  - specialize (Hperform args (mkWorld fs "")).
    destruct (perform args (mkWorld fs "")) as [r σ]. cbn in Hperform.
    specialize (IH (fsys σ)).
    destruct (session perform (fsys σ) rest) as [fs' outs]. cbn in *.
    eapply grown_trans; [|exact IH]. by eapply created_grown.
Qed.

Section PerformKeeps.
Context {W : Type} {Wr : Writer W} {J : Codec}.

(** With the backing file there (or no file named), [Perform] leaves the
    file system as it is. *)
Lemma Perform_fs_kept (args : Arguments) (σ : world W) :
  index args "fileName" = "" ∨ is_Some (fsys σ !! index args "fileName") →
  fsys (MainGo.Perform args σ).2 = fsys σ ∧
  fsys (Part000.Perform args σ).2 = fsys σ.
Proof.
  intros [Hname | [n Hn]].
  - by destruct (Perform_no_fileName args σ Hname) as [-> ->].
  - split.
    + destruct (main_Perform_created args σ) as [-> | [Hnone _]]; congruence.
    + destruct (part_Perform_created args σ) as [-> | [Hnone _]]; congruence.
Qed.

End PerformKeeps.

Lemma session_alone (perform : Arguments → M string unit)
    (invocations : list Arguments) (fs : gmap string node) :
  (∀ args, args ∈ invocations → fsys (perform args (mkWorld fs "")).2 = fs) →
  session perform fs invocations = (fs, alone perform fs <$> invocations).
Proof.
  induction invocations as [|args rest IH]; intros Hkept; [reflexivity|].
  cbn [session fmap list_fmap]. unfold alone at 1.
  pose proof (Hkept args ltac:(left)) as Hargs.
  destruct (perform args (mkWorld fs "")) as [r σ]. cbn in Hargs. subst fs.
  rewrite IH by (intros; apply Hkept; by right). reflexivity.
Qed.

(** Whatever invocations are made one after the other, in either version,
    nothing is ever stored: afterwards every path of the file system holds
    what it held before the first of them, except that a file which did not
    exist may now exist, empty. *)
Theorem session_stores_nothing {J : Codec}
    (invocations : list Arguments) (fs : gmap string node) :
  grown fs (session (MainGo.Perform (Wr := Buffer)) fs invocations).1 ∧
  grown fs (session (Part000.Perform (Wr := Buffer)) fs invocations).1.
Proof.
  split; apply session_grown; intros args σ.
  - apply main_Perform_created.
  - apply part_Perform_created.
Qed.

(** When every invocation names a file that exists (or names none), each
    returns and writes what it would if it were the only one: the outcome of
    an invocation does not depend on the invocations before it, and the
    file system is unchanged. *)
Theorem session_history_independent {J : Codec}
    (invocations : list Arguments) (fs : gmap string node) :
  (∀ args, args ∈ invocations →
     index args "fileName" = "" ∨ is_Some (fs !! index args "fileName")) →
  session (MainGo.Perform (Wr := Buffer)) fs invocations =
    (fs, alone (MainGo.Perform (Wr := Buffer)) fs <$> invocations) ∧
  session (Part000.Perform (Wr := Buffer)) fs invocations =
    (fs, alone (Part000.Perform (Wr := Buffer)) fs <$> invocations).
Proof.
  intros Hnamed.
  split; apply session_alone; intros args Hargs;
    by apply (Perform_fs_kept args (mkWorld fs "")), Hnamed.
Qed.

(** An add, the same add again and a remove: the second add meets no
    collision and the remove finds nothing, as on the first day. *)
Lemma session_history_independent_witness :
  let fs := fsys (store "[]") in
  session (MainGo.Perform (Wr := Buffer) (J := GoJSON)) fs
    [parseArgs "" "add" aliceText "users.json";
     parseArgs "" "add" aliceText "users.json";
     parseArgs "1" "remove" "" "users.json"] =
  (fs, [(Ok tt, "[" +:+ aliceText +:+ "]");
        (Ok tt, "[" +:+ aliceText +:+ "]");
        (Ok tt, "Item with id 1 not found")]).
Proof.
  intros fs.
  destruct (session_history_independent (J := GoJSON)
    [parseArgs "" "add" aliceText "users.json";
     parseArgs "" "add" aliceText "users.json";
     parseArgs "1" "remove" "" "users.json"] fs) as [-> _]; [|reflexivity].
  intros args Hargs. right.
  rewrite !elem_of_cons, elem_of_nil in Hargs.
  destruct Hargs as [->|[->|[->|[]]]]; by eexists.
Defined.

(** ** Identifiers stay unique *)

Lemma unique_ids_snoc (l : list User) (user : User) :
  unique_ids l → Forall (λ v, ID v ≠ ID user) l → unique_ids (l ++ [user]).
Proof.
  unfold unique_ids. intros Hl Hfresh.
  rewrite fmap_app. apply NoDup_app. split; [done|]. split.
  - intros x Hx Hx'. apply list_elem_of_fmap in Hx as (v & -> & Hv).
    apply list_elem_of_singleton in Hx'.
    rewrite Forall_forall in Hfresh. by apply (Hfresh v).
  - apply NoDup_singleton.
Qed.

(** In a sequence with unique identifiers, the records around the first one
    with an identifier are those that do not have it. *)
Lemma unique_ids_around (id : string) (l l1 l2 : list User) (u : User) :
  unique_ids l → first_with id l l1 u l2 →
  unique_ids (l1 ++ l2) ∧ ∀ v, v ∈ l1 ++ l2 ↔ v ∈ l ∧ ID v ≠ id.
Proof.
  unfold unique_ids. intros Hl (-> & Hl1 & Hu).
  rewrite fmap_app, fmap_cons in Hl.
  apply NoDup_app in Hl as (Hn1 & Hdisj & Hn2).
  apply NoDup_cons in Hn2 as [Hu2 Hn2].
  rewrite Forall_forall in Hl1.
  assert (∀ v, v ∈ l2 → ID v ≠ id) as Hl2.
  { intros v Hv Hid. apply Hu2. rewrite Hu, <- Hid.
    apply list_elem_of_fmap. by exists v. }
  split.
  - rewrite fmap_app. apply NoDup_app. split; [done|]. split; [|done].
    intros x Hx Hx'. apply (Hdisj x Hx). by right.
  - intros v. rewrite !elem_of_app, elem_of_cons. split.
    + intros [Hv|Hv]; (split; [tauto|]); auto.
    + intros [[Hv|[->|Hv]] Hid]; (tauto || done).
Qed.

(** [addItem] keeps identifiers unique: on content that decodes to records
    with pairwise distinct identifiers, either some record has the
    identifier of the new one and only the message is written, or what is
    written is the encoding of a sequence, the old one with the new record
    at its end, whose identifiers are again pairwise distinct. *)
Theorem addItem_keeps_ids_unique {W : Type} {Wr : Writer W} {J : Codec}
    (file : File) (item data : string) (items : Users) (user : User) (σ : world W) :
  fsys σ !! path file = Some (Regular data) →
  decodeUsers data = inr items →
  decodeUser item = inr user →
  unique_ids (elems items) →
  ((∃ u, u ∈ elems items ∧ ID u = ID user) ∧
   MainGo.addItem file item σ =
     emit ("Item with id " +:+ ID user +:+ " already exists") σ ∧
   Part000.addItem file item σ =
     emit ("Item with id " +:+ ID user +:+ " already exists") σ) ∨
  (unique_ids (elems items ++ [user]) ∧
   MainGo.addItem file item σ = emit (encodeUsers (Some (elems items ++ [user]))) σ ∧
   Part000.addItem file item σ = emit (encodeUsers (Some (elems items ++ [user]))) σ).
Proof.
  intros Hf Hd Hi Huniq.
  destruct (first_with_or_none (ID user) (elems items))
    as [(l1 & u & l2 & Hsplit & Hl1 & Hu) | Hnone].
  - left. split; [|split].
    + exists u. split; [|done]. rewrite Hsplit. apply elem_of_app. right. by left.
    + by eapply main_addItem_dup.
    + by eapply part_addItem_dup.
  - right. split; [|split].
    + by apply unique_ids_snoc.
    + by eapply main_addItem_fresh.
    + by eapply part_addItem_fresh.
Qed.

Lemma addItem_keeps_ids_unique_witness :
  let σ := store ("[" +:+ aliceText +:+ "]") in
  unique_ids [alice; bob] ∧
  MainGo.addItem (Wr := Buffer) (J := GoJSON) usersFile bobText σ =
    (Ok tt, mkWorld (fsys σ) ("[" +:+ aliceText +:+ "," +:+ bobText +:+ "]")).
Proof.
  intros σ.
  destruct (addItem_keeps_ids_unique (Wr := Buffer) (J := GoJSON) usersFile bobText
    ("[" +:+ aliceText +:+ "]") (Some [alice]) bob σ)
    as [((u & Hu & Hid) & _) | (Huniq & -> & _)]; [reflexivity..| | |].
  - apply NoDup_singleton.
  - apply list_elem_of_singleton in Hu. subst u. vm_compute in Hid. discriminate.
  - split; [exact Huniq | reflexivity].
Defined.

(** [removeUser] on non-empty content that decodes to records with pairwise
    distinct identifiers, one of which is the given one: both versions
    write the encoding of a sequence that holds exactly the records with
    another identifier, in their order, and whose identifiers are pairwise
    distinct; no record with the given identifier is left. *)
Theorem removeUser_on_unique_ids {W : Type} {Wr : Writer W} {J : Codec}
    (file : File) (id data : string) (items : Users) (σ : world W) :
  fsys σ !! path file = Some (Regular data) →
  decodeUsers data = inr items →
  unique_ids (elems items) →
  (∃ u, u ∈ elems items ∧ ID u = id) →
  ∃ l1 u l2,
    first_with id (elems items) l1 u l2 ∧
    MainGo.removeUser file id σ = emit (encodeUsers (Some (l1 ++ l2))) σ ∧
    Part000.removeUser file id σ = emit (encodeUsers (Some (l1 ++ l2))) σ ∧
    unique_ids (l1 ++ l2) ∧
    ∀ v, v ∈ l1 ++ l2 ↔ v ∈ elems items ∧ ID v ≠ id.
Proof.
  intros Hf Hd Huniq Hex.
  destruct (first_match_split (λ u, ID u = id) (elems items) Hex)
    as (l1 & u & l2 & Hsplit & Hl1 & Hu).
  assert (first_with id (elems items) l1 u l2) as Hfirst by done.
  destruct (unique_ids_around id (elems items) l1 l2 u Huniq Hfirst) as [Hu' Hmem].
  pose proof (decoded_nonempty data items Hd) as Hlen.
  exists l1, u, l2. split; [done|]. split; [|split; [|done]].
  - by eapply main_removeUser_first.
  - by eapply part_removeUser_first.
Qed.

Lemma removeUser_on_unique_ids_witness :
  let σ := store ("[" +:+ aliceText +:+ "," +:+ bobText +:+ "]") in
  MainGo.removeUser (Wr := Buffer) (J := GoJSON) usersFile "1" σ =
    (Ok tt, mkWorld (fsys σ) ("[" +:+ bobText +:+ "]")).
Proof.
  intros σ.
  destruct (removeUser_on_unique_ids (Wr := Buffer) (J := GoJSON) usersFile "1"
    ("[" +:+ aliceText +:+ "," +:+ bobText +:+ "]") (Some [alice; bob]) σ)
    as (l1 & u & l2 & (Hsplit & Hl1 & Hu) & -> & _); [reflexivity | reflexivity | | |].
  - apply NoDup_cons. split; [|apply NoDup_singleton].
    intros Hin%list_elem_of_singleton. vm_compute in Hin. discriminate.
  - exists alice. split; [left | reflexivity].
  - destruct l1 as [|v l1].
    + injection Hsplit as <- <-. reflexivity.
    + injection Hsplit as <- Hrest. apply Forall_cons in Hl1 as [Hv _].
      exfalso. by apply Hv.
Defined.

(** ** What an add wrote, read back *)

(** The output of an add that appended, used as the content of the backing
    file.  Provided the codec decodes that output to the sequence it
    encodes: "list" writes it again; "findById" with the identifier of the
    new record writes the new record; "remove" with that identifier writes
    the encoding of the sequence as it was before the add; and the same add
    again is refused with the message.  Both versions agree. *)
Theorem add_output_read_back {W : Type} {Wr : Writer W} {J : Codec}
    (file : File) (item data : string) (items : Users) (user : User) (σ τ : world W) :
  let written := encodeUsers (Some (elems items ++ [user])) in
  fsys σ !! path file = Some (Regular data) →
  decodeUsers data = inr items →
  decodeUser item = inr user →
  (∀ u, u ∈ elems items → ID u ≠ ID user) →
  decodeUsers written = inr (Some (elems items ++ [user])) →
  fsys τ !! path file = Some (Regular written) →
  (MainGo.addItem file item σ = emit written σ ∧
   Part000.addItem file item σ = emit written σ) ∧
  listItems file τ = emit written τ ∧
  findUserById file (ID user) τ = emit (encodeUser user) τ ∧
  (MainGo.removeUser file (ID user) τ = emit (encodeUsers (Some (elems items))) τ ∧
   Part000.removeUser file (ID user) τ = emit (encodeUsers (Some (elems items))) τ) ∧
  (MainGo.addItem file item τ =
     emit ("Item with id " +:+ ID user +:+ " already exists") τ ∧
   Part000.addItem file item τ =
     emit ("Item with id " +:+ ID user +:+ " already exists") τ).
Proof.
  intros written Hf Hd Hi Hfresh Hback Hg.
  apply Forall_forall in Hfresh.
  pose proof (decoded_nonempty written _ Hback) as Hlen.
  assert (elems (Some (elems items ++ [user])) = elems items ++ user :: []) as Hsplit
    by reflexivity.
  split; [|split; [|split; [|split]]].
  - split; [by eapply main_addItem_fresh | by eapply part_addItem_fresh].
  - by eapply listItems_decoded.
  - by eapply findUserById_first.
  - pose proof (main_removeUser_first file (ID user) written _ (elems items) user []
      τ Hg Hlen Hback Hsplit Hfresh eq_refl) as Hmain.
    pose proof (part_removeUser_first file (ID user) written _ (elems items) user []
      τ Hg Hlen Hback Hsplit Hfresh eq_refl) as Hpart.
    rewrite app_nil_r in Hmain, Hpart. by split.
  - split; [by eapply main_addItem_dup | by eapply part_addItem_dup].
Qed.

(** The file holds alice; bob is added; the output is made the content. *)
Lemma add_output_read_back_witness :
  let written := "[" +:+ aliceText +:+ "," +:+ bobText +:+ "]" in
  let τ := store written in
  MainGo.addItem (Wr := Buffer) (J := GoJSON) usersFile bobText
      (store ("[" +:+ aliceText +:+ "]")) =
    (Ok tt, mkWorld (fsys (store ("[" +:+ aliceText +:+ "]"))) written) ∧
  findUserById (Wr := Buffer) (J := GoJSON) usersFile "2" τ =
    (Ok tt, mkWorld (fsys τ) bobText) ∧
  Part000.removeUser (Wr := Buffer) (J := GoJSON) usersFile "2" τ =
    (Ok tt, mkWorld (fsys τ) ("[" +:+ aliceText +:+ "]")).
Proof.
  intros written τ.
  destruct (add_output_read_back (Wr := Buffer) (J := GoJSON) usersFile bobText
    ("[" +:+ aliceText +:+ "]") (Some [alice]) bob
    (store ("[" +:+ aliceText +:+ "]")) τ)
    as ((Hadd & _) & _ & Hfind & (_ & Hremove) & _); [reflexivity..| | | |].
  - intros u ->%list_elem_of_singleton. vm_compute. discriminate.
  - reflexivity.
  - reflexivity.
  - split; [|split].
    + rewrite Hadd. reflexivity.
    + change (ID bob) with "2" in Hfind. rewrite Hfind. reflexivity.
    + change (ID bob) with "2" in Hremove. rewrite Hremove. reflexivity.
Defined.

(** ** When a run panics *)

Lemma parseArgs_index (idFlag operationFlag itemFlag fileNameFlag : string) :
  let args := parseArgs idFlag operationFlag itemFlag fileNameFlag in
  index args "id" = idFlag ∧ index args "operation" = operationFlag ∧
  index args "item" = itemFlag ∧ index args "fileName" = fileNameFlag.
Proof. unfold parseArgs, index. repeat split; by simplify_map_eq. Qed.

Section Success.
Context {W : Type} {Wr : Writer W} {J : Codec}.
Implicit Types (file : File) (σ : world W) (args : Arguments).

Lemma one_write_ok (m : M W unit) σ :
  reliable Wr → (∃ p, m σ = emit p σ) → (m σ).1 = Ok tt.
Proof. intros Hrel [p ->]. by apply emit_reliable. Qed.

Lemma refused_not_readable (data msg : string) :
  String.length data ≠ 0 → decodeUsers data = inl msg → ¬ (data = "" ∨ decodes data).
Proof. intros Hlen Hmsg [-> | [items Hd]]; [done | congruence]. Qed.

Lemma readable_ok_iff (m : M W unit) (data : string) σ :
  reliable Wr →
  (data = "" ∨ decodes data → ∃ p, m σ = emit p σ) →
  (∀ msg, String.length data ≠ 0 → decodeUsers data = inl msg →
     m σ = (Err (ErrJSON msg), σ)) →
  (m σ).1 = Ok tt ↔ data = "" ∨ decodes data.
Proof.
  intros Hrel Hread Hrefused.
  destruct (content_cases data) as [Hempty | [Hdec | [Hlen [msg Hmsg]]]].
  - split; [auto|]. intros _. apply one_write_ok; auto.
  - split; [auto|]. intros _. apply one_write_ok; auto.
  - rewrite (Hrefused msg Hlen Hmsg). split; [done|].
    intros Hr. by destruct (refused_not_readable data msg Hlen Hmsg).
Qed.

Lemma listItems_ok_iff file data σ :
  reliable Wr → fsys σ !! path file = Some (Regular data) →
  (listItems file σ).1 = Ok tt ↔ data = "" ∨ decodes data.
Proof.
  intros Hrel Hf. apply readable_ok_iff; [done|by apply listItems_readable|].
  intros msg Hlen Hmsg. by destruct (content_failure file "" "" data msg σ Hf Hlen Hmsg)
    as (_ & ? & _).
Qed.

Lemma findUserById_ok_iff file id data σ :
  reliable Wr → fsys σ !! path file = Some (Regular data) →
  (findUserById file id σ).1 = Ok tt ↔ data = "" ∨ decodes data.
Proof.
  intros Hrel Hf. apply readable_ok_iff; [done|by apply findUserById_readable|].
  intros msg Hlen Hmsg. by destruct (content_failure file "" id data msg σ Hf Hlen Hmsg)
    as (_ & _ & ? & _).
Qed.

Lemma main_removeUser_ok_iff file id data σ :
  reliable Wr → fsys σ !! path file = Some (Regular data) →
  (MainGo.removeUser file id σ).1 = Ok tt ↔ data = "" ∨ decodes data.
Proof.
  intros Hrel Hf. apply readable_ok_iff; [done|by apply main_removeUser_readable|].
  intros msg Hlen Hmsg. by destruct (content_failure file "" id data msg σ Hf Hlen Hmsg)
    as (_ & _ & _ & ? & _).
Qed.

Lemma part_removeUser_ok_iff file id data σ :
  reliable Wr → fsys σ !! path file = Some (Regular data) →
  (Part000.removeUser file id σ).1 = Ok tt ↔ data = "" ∨ decodes data.
Proof.
  intros Hrel Hf. apply readable_ok_iff; [done|by apply part_removeUser_readable|].
  intros msg Hlen Hmsg. by destruct (content_failure file "" id data msg σ Hf Hlen Hmsg)
    as (_ & _ & _ & _ & ?).
Qed.

Lemma part_addItem_ok_iff file item data σ :
  reliable Wr → fsys σ !! path file = Some (Regular data) →
  (Part000.addItem file item σ).1 = Ok tt ↔ decodes data ∧ decodesUser item.
Proof.
  intros Hrel Hf.
  destruct (decodeUsers data) as [msg|items] eqn:Hd.
  - rewrite (part_addItem_content_failure file item data msg σ Hf Hd).
    split; [done|]. intros [[items Hitems] _]. unfold decodes in *. congruence.
  - destruct (decodeUser item) as [msg|user] eqn:Hi.
    + destruct (item_failure file item data items msg σ Hf Hd Hi) as [_ ->].
      split; [done|]. intros [_ [user Huser]]. congruence.
    + split.
      * intros _. split; [by exists items | by exists user].
      * intros _. apply one_write_ok; [done|]. by eapply part_addItem_decoded.
Qed.

Lemma main_addItem_ok_iff file item data σ :
  reliable Wr → fsys σ !! path file = Some (Regular data) →
  (MainGo.addItem file item σ).1 = Ok tt ↔
  data = "" ∨ (decodes data ∧ decodesUser item).
Proof.
  intros Hrel Hf.
  destruct (decide (String.length data = 0)) as [Hlen|Hlen].
  - apply length_zero_empty in Hlen as ->.
    rewrite (main_addItem_empty file item σ Hf), emit_reliable by done. tauto.
  - assert (data ≠ "") as Hne by (by intros ->).
    destruct (decodeUsers data) as [msg|items] eqn:Hd.
    + destruct (content_failure file item "" data msg σ Hf Hlen Hd) as (-> & _).
      split; [done|]. intros [? | [[items Hitems] _]]; [done | congruence].
    + destruct (decodeUser item) as [msg|user] eqn:Hi.
      * destruct (item_failure file item data items msg σ Hf Hd Hi) as [-> _].
        split; [done|]. intros [? | [_ [user Huser]]]; [done | congruence].
      * split.
        -- intros _. right. split; [by exists items | by exists user].
        -- intros _. apply one_write_ok; [done|]. by eapply main_addItem_decoded.
Qed.

End Success.

Section PerformSuccess.
Context {W : Type} {Wr : Writer W} {J : Codec}.
Implicit Types (σ : world W) (args : Arguments).

Lemma Perform_flags_missing args σ :
  ¬ flags_given args →
  (MainGo.Perform args σ).1 ≠ Ok tt ∧ (Part000.Perform args σ).1 ≠ Ok tt.
Proof.
  intros Hflags. unfold flags_given in Hflags.
  destruct (decide (index args "fileName" = "")) as [Hname|Hname].
  { by destruct (Perform_no_fileName args σ Hname) as [-> ->]. }
  destruct (decide (index args "operation" = "")) as [Hop|Hop].
  { by destruct (Perform_no_operation args σ Hname Hop) as [-> ->]. }
  pose proof (main_Perform_created args σ) as _.
  unfold MainGo.Perform, Part000.Perform. cbv zeta.
  rewrite !(decide_False (P := index args "fileName" = "")) by done.
  rewrite !(decide_False (P := index args "operation" = "")) by done.
  rewrite !bind_run.
  destruct (OpenFile (index args "fileName") σ) as [[file|e] σ']; [|done].
  destruct (decide (index args "operation" = "add")) as [Hadd|Hadd].
  { destruct (decide (index args "item" = "")); [done|]. exfalso. tauto. }
  destruct (decide (index args "operation" = "list")); [exfalso; tauto|].
  destruct (decide (index args "operation" = "findById")).
  { destruct (decide (index args "id" = "")); [done|]. exfalso. tauto. }
  destruct (decide (index args "operation" = "remove")).
  { destruct (decide (index args "id" = "")); [done|]. exfalso. tauto. }
  done.
Qed.

End PerformSuccess.

(** With a writer that does not fail and a backing file that exists and can
    be read, a run of main.go returns (does not panic) exactly when the
    flags it needs are given and the content is empty or decodes, and, for
    an add on content that is not empty, the item decodes too.  The second
    version is the same except for "add", which also panics on the empty
    file.  In particular an identifier that no record has never makes
    "findById" or "remove" panic. *)
Theorem main_returns_iff {W : Type} {Wr : Writer W} {J : Codec}
    (idFlag operationFlag itemFlag fileNameFlag data : string) (σ : world W) :
  reliable Wr →
  fsys σ !! fileNameFlag = Some (Regular data) →
  let readable := data = "" ∨ decodes data in
  ((MainGo.main idFlag operationFlag itemFlag fileNameFlag σ).1 = Returns ↔
     fileNameFlag ≠ "" ∧
     (operationFlag = "add" ∧ itemFlag ≠ "" ∧
        (data = "" ∨ (decodes data ∧ decodesUser itemFlag)) ∨
      operationFlag = "list" ∧ readable ∨
      (operationFlag = "findById" ∨ operationFlag = "remove") ∧ idFlag ≠ "" ∧
        readable)) ∧
  ((Part000.main idFlag operationFlag itemFlag fileNameFlag σ).1 = Returns ↔
     fileNameFlag ≠ "" ∧
     (operationFlag = "add" ∧ itemFlag ≠ "" ∧ decodes data ∧ decodesUser itemFlag ∨
      operationFlag = "list" ∧ readable ∨
      (operationFlag = "findById" ∨ operationFlag = "remove") ∧ idFlag ≠ "" ∧
        readable)).
Proof.
  intros Hrel Hf readable.
  set (args := parseArgs idFlag operationFlag itemFlag fileNameFlag).
  destruct (parseArgs_index idFlag operationFlag itemFlag fileNameFlag)
    as (Hid & Hop & Hitem & Hname). fold args in Hid, Hop, Hitem, Hname.
  assert ((MainGo.main idFlag operationFlag itemFlag fileNameFlag σ).1 = Returns ↔
          (MainGo.Perform args σ).1 = Ok tt) as ->.
  { unfold MainGo.main. fold args.
    destruct (MainGo.Perform args σ) as [[[]|e] σ']; cbn; split; congruence. }
  assert ((Part000.main idFlag operationFlag itemFlag fileNameFlag σ).1 = Returns ↔
          (Part000.Perform args σ).1 = Ok tt) as ->.
  { unfold Part000.main. fold args.
    destruct (Part000.Perform args σ) as [[[]|e] σ']; cbn; split; congruence. }
  clearbody args. subst idFlag operationFlag itemFlag fileNameFlag.
  destruct (decide (flags_given args)) as [Hflags|Hflags].
  2: { destruct (Perform_flags_missing args σ Hflags) as [Hmain Hpart].
       unfold flags_given in Hflags.
       split; (split; [done|]); intros; exfalso; apply Hflags; tauto. }
  destruct Hflags as [Hfn Hcases].
  assert (OpenFile (index args "fileName") σ = (Ok (mkFile (index args "fileName")), σ))
    as Hopen by by eapply OpenFile_present.
  destruct (Perform_dispatch args (mkFile (index args "fileName")) σ σ Hfn Hopen)
    as (Hadd & Hlist & Hfind & Hremove).
  destruct Hcases as [[Ho Hi] | [Ho | [[Ho | Ho] Hi]]]; rewrite Ho.
  - destruct (Hadd Ho Hi) as [-> ->].
    rewrite main_addItem_ok_iff, part_addItem_ok_iff by done.
    unfold readable. split; intuition (try discriminate; auto).
  - destruct (Hlist Ho) as [-> ->].
    rewrite !listItems_ok_iff by done.
    unfold readable. split; intuition (try discriminate; auto).
  - destruct (Hfind Ho Hi) as [-> ->].
    rewrite !findUserById_ok_iff by done.
    unfold readable. split; intuition (try discriminate; auto).
  - destruct (Hremove Ho Hi) as [-> ->].
    rewrite main_removeUser_ok_iff, part_removeUser_ok_iff by done.
    unfold readable. split; intuition (try discriminate; auto).
Qed.

Lemma Buffer_reliable : reliable Buffer.
Proof. intros w p. exists (String.length p). reflexivity. Qed.

(** An identifier no record has, and the first add of the second version. *)
Lemma main_returns_iff_witness :
  (MainGo.main (Wr := Buffer) (J := GoJSON) "9" "findById" "" "users.json"
     (store ("[" +:+ aliceText +:+ "]"))).1 = Returns ∧
  (Part000.main (Wr := Buffer) (J := GoJSON) "9" "remove" "" "users.json"
     (store ("[" +:+ aliceText +:+ "]"))).1 = Returns ∧
  (Part000.main (Wr := Buffer) (J := GoJSON) "" "add" aliceText "users.json"
     (store "")).1 ≠ Returns.
Proof.
  split; [|split].
  - apply (main_returns_iff (Wr := Buffer) (J := GoJSON) "9" "findById" ""
      "users.json" ("[" +:+ aliceText +:+ "]") (store ("[" +:+ aliceText +:+ "]")));
      [apply Buffer_reliable | reflexivity |].
    split; [vm_compute; discriminate|]. right. right.
    split; [by left|]. split; [vm_compute; discriminate|].
    right. exists (Some [alice]). reflexivity.
  - apply (main_returns_iff (Wr := Buffer) (J := GoJSON) "9" "remove" ""
      "users.json" ("[" +:+ aliceText +:+ "]") (store ("[" +:+ aliceText +:+ "]")));
      [apply Buffer_reliable | reflexivity |].
    split; [vm_compute; discriminate|]. right. right.
    split; [by right|]. split; [vm_compute; discriminate|].
    right. exists (Some [alice]). reflexivity.
  - intros Hret.
    apply (main_returns_iff (Wr := Buffer) (J := GoJSON) "" "add" aliceText
      "users.json" "" (store "")) in Hret; [|apply Buffer_reliable | reflexivity].
    destruct Hret as [_ [(_ & _ & [items Hd] & _) | [[Hop _] | [[Hop | Hop] _]]]];
      vm_compute in *; discriminate.
Defined.
